(** * Scheduler and S3 link updater: a shallow embedding

    The development follows the two core modules of the repository:
    [tasks/s3_link_updater.py] (the link-refresh task) and
    [scheduler/scheduler.py] (the task scheduler).  Python [str] values are
    [string]s, dictionaries are [gmap]s, and the asynchronous, exception
    raising methods live in a small state-and-exception monad over an
    explicit world (object store, local files, database session, logs). *)

From Stdlib Require Import ZArith QArith Qround String Ascii.
From stdpp Require Import gmap strings list fin_maps pretty.

Local Open Scope Z_scope.

(** ** Python string primitives *)

Module PyStr.

(** [sub in s] *)
Fixpoint contains (sub s : string) : bool :=
  String.prefix sub s ||
  match s with
  | EmptyString => false
  | String _ s' => contains sub s'
  end.

Fixpoint drop_chars (n : nat) (s : string) : string :=
  match n, s with
  | O, _ => s
  | S n', String _ s' => drop_chars n' s'
  | S _, EmptyString => EmptyString
  end.

(** The leftmost occurrence of [sep] in [s]: the text before it and the
    text after it ([str.find] followed by the two slices). *)
Fixpoint find_cut (sep s : string) : option (string * string) :=
  if String.prefix sep s then Some (EmptyString, drop_chars (String.length sep) s)
  else
    match s with
    | EmptyString => None
    | String c s' =>
        match find_cut sep s' with
        | Some (a, b) => Some (String c a, b)
        | None => None
        end
    end.

(** The text of [s] up to its first [sep], all of [s] when there is none. *)
Definition upto (sep s : string) : string :=
  match find_cut sep s with
  | Some (a, _) => a
  | None => s
  end.

(** [s.split(sep)] for a non-empty separator: cut at the leftmost
    occurrence and go on in the remainder.  Every cut consumes at least one
    character, so [String.length s] rounds are enough (see
    [split_fuel_enough]). *)
Fixpoint split_fuel (fuel : nat) (sep s : string) : list string :=
  match fuel with
  | O => [s]
  | S fuel' =>
      match find_cut sep s with
      | None => [s]
      | Some (a, b) => a :: split_fuel fuel' sep b
      end
  end.

Definition split (sep s : string) : list string :=
  split_fuel (String.length s) sep s.

(** [sep.join(l)] *)
Fixpoint join (sep : string) (l : list string) : string :=
  match l with
  | [] => EmptyString
  | [x] => x
  | x :: l' => x +:+ sep +:+ join sep l'
  end.

(** [s.rfind(c)] as the text after the last [c], when there is one. *)
Fixpoint after_last (c : ascii) (s : string) : option string :=
  match s with
  | EmptyString => None
  | String d s' =>
      match after_last c s' with
      | Some t => Some t
      | None => if Ascii.eqb c d then Some s' else None
      end
  end.

(** [os.path.basename] on a POSIX path. *)
Definition basename (p : string) : string :=
  match after_last "/" p with
  | Some t => t
  | None => p
  end.

Fixpoint all_dots (s : string) : bool :=
  match s with
  | EmptyString => true
  | String c s' => Ascii.eqb c "." && all_dots s'
  end.

(** The extension found by [os.path.splitext] on a name without a slash:
    from the last dot on, unless only dots come before it. *)
Definition splitext_ext (name : string) : string :=
  match after_last "." name with
  | None => EmptyString
  | Some t =>
      let stem_len := (String.length name - String.length t - 1)%nat in
      if all_dots (String.substring 0 stem_len name) then EmptyString
      else String "." t
  end.

End PyStr.

(** ** Exceptions and results

    [exn] stands for instances of [Exception], the class every handler of
    the task names; task cancellation and interpreter signals, which are
    not [Exception]s, are outside the model. *)

Inductive exn : Type :=
  | IndexError
  | ValueError (msg : string)
  | DownloadError (url : string) (status : Z)
  | CollaboratorError (op : string).

Inductive result (A : Type) : Type :=
  | Ok (a : A)
  | Raise (e : exn).
Arguments Ok {A} a.
Arguments Raise {A} e.

(** [l[i]] on a Python list. *)
Definition py_index {A} (l : list A) (i : nat) : result A :=
  match l !! i with
  | Some x => Ok x
  | None => Raise IndexError
  end.

(** ** [S3LinkUpdaterTask._extract_path_from_url] *)

Definition amazon_marker : string := "s3.amazonaws.com".
Definition amazon_marker_slash : string := "s3.amazonaws.com/".

(** The body of the [try] block; [None] stands for Python's [None]. *)
Definition extract_path_body (url : string) : result (option string) :=
  if PyStr.contains amazon_marker url then
    match py_index (PyStr.split amazon_marker_slash url) 1 with
    | Ok path => Ok (Some path)
    | Raise e => Raise e
    end
  else
    let parts := PyStr.split "/" url in
    if (4 <=? length parts)%nat then
      match py_index (PyStr.split "?" (PyStr.join "/" (drop 3 parts))) 0 with
      | Ok path => Ok (Some path)
      | Raise e => Raise e
      end
    else Ok None.

(** [except Exception: ... return None] *)
Definition _extract_path_from_url (url : string) : option string :=
  match extract_path_body url with
  | Ok r => r
  | Raise _ => None
  end.

(** ** [tasks/base_task.py] and [scheduler/scheduler.py] *)

Module Scheduler.

(** [BaseTask]: the scheduler only reads [name] (through [job_id]) and
    [interval]; [execute] is an opaque coroutine run by the event loop. *)
Record BaseTask : Type := { name : string; interval : Q }.

Definition job_id (t : BaseTask) : string := "task_" +:+ name t.

(** [int(x)] on a number: truncation toward zero. *)
Definition py_int (q : Q) : Z := Z.quot (Qnum q) (Zpos (Qden q)).

(** What a [crontab] calls when it fires: [task.execute] itself, or the
    closure [wrapped_task] built by [_create_seconds_job]. *)
Inductive cron_func : Type :=
  | call_execute (t : BaseTask)
  | wrapped_task (t : BaseTask).

(** An [aiocron.crontab] handle: its expression, its callback, and whether
    it is currently started. *)
Record crontab : Type := { spec : string; func : cron_func; started : bool }.

Record TaskScheduler : Type :=
  { tasks : gmap string BaseTask; crons : gmap string crontab }.

(** [TaskScheduler.__init__] *)
Definition new_scheduler : TaskScheduler := {| tasks := ∅; crons := ∅ |}.

Definition _create_seconds_job (t : BaseTask) : crontab :=
  {| spec := "* * * * *"; func := wrapped_task t; started := false |}.

(** The cron expression chosen in the [else] branch of [add_task]. *)
Definition cron_expr (interval_seconds : Z) : string :=
  let minutes := interval_seconds / 60 in
  if minutes <? 60 then
    if 1 <? minutes then "*/" +:+ pretty minutes +:+ " * * * *" else "* * * * *"
  else
    let hours := minutes / 60 in
    if 1 <? hours then "0 */" +:+ pretty hours +:+ " * * *" else "0 * * * *".

Definition make_cron_job (t : BaseTask) : crontab :=
  let interval_seconds := py_int (interval t) in
  if interval_seconds <? 60 then _create_seconds_job t
  else {| spec := cron_expr interval_seconds; func := call_execute t; started := false |}.

Definition add_task (t : BaseTask) (s : TaskScheduler) : bool * TaskScheduler :=
  match tasks s !! job_id t with
  | Some _ => (false, s)
  | None =>
      let cron_job := make_cron_job t in
      (true, {| tasks := <[job_id t := t]> (tasks s);
                crons := <[job_id t := cron_job]> (crons s) |})
  end.

Definition remove_task (task_id : string) (s : TaskScheduler) : bool * TaskScheduler :=
  match tasks s !! task_id with
  | None => (false, s)
  | Some _ =>
      let crons' :=
        match crons s !! task_id with
        | Some _ => delete task_id (crons s)   (* [stop()] then [del] *)
        | None => crons s
        end in
      (true, {| tasks := delete task_id (tasks s); crons := crons' |})
  end.

(** [cron.stop()] on every handle, then [self.crons = {}]. *)
Definition shutdown (s : TaskScheduler) : TaskScheduler :=
  {| tasks := tasks s; crons := ∅ |}.

Definition get_tasks (s : TaskScheduler) : list BaseTask :=
  snd <$> map_to_list (tasks s).

Definition start_cron (c : crontab) : crontab :=
  {| spec := spec c; func := func c; started := true |}.

(** *** The cron primitive

    The scheduler only emits five-field expressions whose minute and hour
    fields are [*], [*/n] or a number and whose remaining fields are [*];
    [cron_due] reads exactly these. *)

Definition digit_value (c : ascii) : option Z :=
  let n := Z.of_nat (nat_of_ascii c) in
  if (48 <=? n) && (n <=? 57) then Some (n - 48) else None.

Fixpoint parse_digits (s : string) (acc : Z) : option Z :=
  match s with
  | EmptyString => Some acc
  | String c s' =>
      match digit_value c with
      | Some d => parse_digits s' (10 * acc + d)
      | None => None
      end
  end.

Definition parse_number (s : string) : option Z :=
  match s with
  | EmptyString => None
  | _ => parse_digits s 0
  end.

Definition field_matches (f : string) (v : Z) : bool :=
  match f with
  | String "*" EmptyString => true
  | String "*" (String "/" n) =>
      match parse_number n with
      | Some k => (0 <? k) && (v mod k =? 0)
      | None => false
      end
  | _ =>
      match parse_number f with
      | Some k => v =? k
      | None => false
      end
  end.

Definition cron_due (expr : string) (minute hour : Z) : bool :=
  match PyStr.split " " expr with
  | [mi; ho; "*"%string; "*"%string; "*"%string] => field_matches mi minute && field_matches ho hour
  | _ => false
  end.

(** *** The event loop around the scheduler

    [runners] are the [seconds_runner] coroutines created with
    [asyncio.create_task]; nothing in the scheduler keeps a reference to
    them.  [trace] records what the loop has run. *)

Inductive obs : Type :=
  | Executed (job : string)
  | ExecuteFailed (job : string)
  | Slept (job : string) (seconds : Q).

Record Runtime : Type :=
  { sched : TaskScheduler; runners : list BaseTask; trace : list obs }.

Inductive event : Type :=
  | EvAdd (t : BaseTask)
  | EvRemove (task_id : string)
  | EvStart
  | EvShutdown
  | EvMinute (minute hour : Z)       (* the wall clock reaches a minute boundary *)
  | EvRunnerTurn (i : nat) (ok : bool). (* runner [i] is resumed; [ok]: did [execute] return *)

Definition fresh_runtime : Runtime :=
  {| sched := new_scheduler; runners := []; trace := [] |}.

(** The callbacks of the started handles that are due at a boundary. *)
Definition due_funcs (s : TaskScheduler) (minute hour : Z) : list cron_func :=
  omap (fun kc : string * crontab =>
          if started kc.2 && cron_due (spec kc.2) minute hour then Some (func kc.2) else None)
       (map_to_list (crons s)).

Definition spawned (f : cron_func) : option BaseTask :=
  match f with wrapped_task t => Some t | call_execute _ => None end.

Definition called (f : cron_func) : option obs :=
  match f with call_execute t => Some (Executed (job_id t)) | wrapped_task _ => None end.

(** [TaskScheduler.start]: nothing without tasks; otherwise every handle is
    started and [_run_task_now] runs each task once.  Every key of [crons]
    is a key of [tasks], so the lookup [self.tasks[job_id]] finds its
    task.  The immediate runs are independent coroutines; the trace lists
    them in key order, the code creates them in insertion order. *)
Definition start (rt : Runtime) : Runtime :=
  let s := sched rt in
  if decide (tasks s = ∅) then rt
  else
    {| sched := {| tasks := tasks s; crons := start_cron <$> crons s |};
       runners := runners rt;
       trace := trace rt ++
                omap (fun kc : string * crontab => Executed ∘ job_id <$> tasks s !! kc.1)
                     (map_to_list (crons s)) |}.

(** What one pass through the body of [while True] in [seconds_runner]
    leaves in the trace. *)
Definition turn_obs (t : BaseTask) (ok : bool) : list obs :=
  [if ok then Executed (job_id t) else ExecuteFailed (job_id t); Slept (job_id t) (interval t)].

Definition step (e : event) (rt : Runtime) : Runtime :=
  match e with
  | EvAdd t =>
      {| sched := snd (add_task t (sched rt)); runners := runners rt; trace := trace rt |}
  | EvRemove task_id =>
      {| sched := snd (remove_task task_id (sched rt)); runners := runners rt; trace := trace rt |}
  | EvStart => start rt
  | EvShutdown =>
      {| sched := shutdown (sched rt); runners := runners rt; trace := trace rt |}
  | EvMinute minute hour =>
      let fired := due_funcs (sched rt) minute hour in
      {| sched := sched rt;
         runners := runners rt ++ omap spawned fired;
         trace := trace rt ++ omap called fired |}
  | EvRunnerTurn i ok =>
      match runners rt !! i with
      | None => rt
      | Some t =>
          {| sched := sched rt;
             runners := runners rt;
             trace := trace rt ++ turn_obs t ok |}
      end
  end.

Definition run (es : list event) (rt : Runtime) : Runtime :=
  foldl (fun r e => step e r) rt es.

(** Registry operations alone, as the callers of the scheduler issue them. *)
Inductive registry_op : Type :=
  | OpAdd (t : BaseTask)
  | OpRemove (task_id : string).

Definition apply_op (o : registry_op) (s : TaskScheduler) : TaskScheduler :=
  match o with
  | OpAdd t => snd (add_task t s)
  | OpRemove task_id => snd (remove_task task_id s)
  end.

Definition apply_ops (os : list registry_op) (s : TaskScheduler) : TaskScheduler :=
  foldl (fun r o => apply_op o r) s os.

End Scheduler.

(** ** [tasks/s3_link_updater.py] *)

Module S3Task.

(** A [Template] row as far as the task reads and writes it; the primary key
    [id] is the key of the maps that hold the rows. *)
Record Template : Type :=
  { download_url : option string; image_url : option string }.

Inductive field : Type := DownloadUrl | ImageUrl.

Definition get_field (f : field) (t : Template) : option string :=
  match f with DownloadUrl => download_url t | ImageUrl => image_url t end.

Definition set_field (f : field) (v : string) (t : Template) : Template :=
  match f with
  | DownloadUrl => {| download_url := Some v; image_url := image_url t |}
  | ImageUrl => {| download_url := download_url t; image_url := Some v |}
  end.

(** What the run does to its collaborators, in order.  [LoopIteration] marks
    the start of one pass through [for template in templates]. *)
Inductive action : Type :=
  | CreateSession
  | SessionExecute
  | S3Client
  | HttpSession
  | LoopIteration (template_id : Z)
  | HeadObject (key : string)
  | GeneratePresignedUrl (key : string) (expires_in : Z)
  | UploadFileobj (key : string)
  | DeleteObject (key : string)
  | HttpGet (url : string)
  | ContentRead
  | FileOpen (path : string)
  | FileWrite (path : string)
  | SessionCommit.

Inductive log_entry : Type :=
  | LogTaskError (e : exn)                          (* "Error in S3 link update task" *)
  | LogTemplateError (template_id : Z) (e : exn)    (* "Error updating template" *)
  | LogFieldError (f : field) (template_id : Z) (e : exn) (* "Failed to update ..." *)
  | LogRefreshError (e : exn)                       (* "Error refreshing S3 link" *)
  | LogReupload (e : exn)                           (* "Object not found or error checking object" *)
  | LogDeleteFailed (path : string) (e : exn)       (* "Failed to delete old S3 object" *)
  | LogCompleted (updated_count : Z).               (* "S3 link update task completed" *)

(** Everything outside the task.  [bucket] is the one bucket named by
    [self.bucket_name]; [web] answers HTTP GETs with a status and the body
    as the chunks that [content.read(1024)] returns; [session] holds the
    Template objects loaded by the query, mutated in place until commit.
    [fails n a] says whether action [a], issued as the [n]-th action of the
    world's history, raises.  [presign] is the store's URL signer and
    [fresh] feeds it, [uuid.uuid4] and [tempfile.mkstemp]. *)
Record World : Type :=
  { bucket : gmap string string;
    web : gmap string (Z * list string);
    files : gmap string string;
    rows : gmap Z Template;
    session : gmap Z Template;
    fails : nat -> action -> bool;
    presign : string -> Z -> nat -> string;
    fresh : nat;
    actions : list action;
    logs : list log_entry }.

Definition set_bucket (b : gmap string string) (w : World) : World :=
  {| bucket := b; web := web w; files := files w; rows := rows w; session := session w;
     fails := fails w; presign := presign w; fresh := fresh w; actions := actions w;
     logs := logs w |}.

Definition set_files (fs : gmap string string) (w : World) : World :=
  {| bucket := bucket w; web := web w; files := fs; rows := rows w; session := session w;
     fails := fails w; presign := presign w; fresh := fresh w; actions := actions w;
     logs := logs w |}.

Definition set_rows (r : gmap Z Template) (w : World) : World :=
  {| bucket := bucket w; web := web w; files := files w; rows := r; session := session w;
     fails := fails w; presign := presign w; fresh := fresh w; actions := actions w;
     logs := logs w |}.

Definition set_session (ss : gmap Z Template) (w : World) : World :=
  {| bucket := bucket w; web := web w; files := files w; rows := rows w; session := ss;
     fails := fails w; presign := presign w; fresh := fresh w; actions := actions w;
     logs := logs w |}.

Definition set_fresh (n : nat) (w : World) : World :=
  {| bucket := bucket w; web := web w; files := files w; rows := rows w; session := session w;
     fails := fails w; presign := presign w; fresh := n; actions := actions w;
     logs := logs w |}.

Definition set_actions (a : list action) (w : World) : World :=
  {| bucket := bucket w; web := web w; files := files w; rows := rows w; session := session w;
     fails := fails w; presign := presign w; fresh := fresh w; actions := a;
     logs := logs w |}.

Definition set_logs (l : list log_entry) (w : World) : World :=
  {| bucket := bucket w; web := web w; files := files w; rows := rows w; session := session w;
     fails := fails w; presign := presign w; fresh := fresh w; actions := actions w;
     logs := l |}.

(** *** The monad of the task's coroutines *)

Definition M (A : Type) : Type := World -> result A * World.

Definition ret {A} (a : A) : M A := fun w => (Ok a, w).

Definition bind {A B} (m : M A) (k : A -> M B) : M B :=
  fun w =>
    match m w with
    | (Ok a, w') => k a w'
    | (Raise e, w') => (Raise e, w')
    end.

Definition raise {A} (e : exn) : M A := fun w => (Raise e, w).

(** [try: m  except Exception as e: h e] *)
Definition try_except {A} (m : M A) (h : exn -> M A) : M A :=
  fun w =>
    match m w with
    | (Ok a, w') => (Ok a, w')
    | (Raise e, w') => h e w'
    end.

(** [try: m  finally: f] *)
Definition try_finally {A} (m : M A) (f : M unit) : M A :=
  fun w =>
    match m w with
    | (r, w') =>
        match f w' with
        | (Ok _, w'') => (r, w'')
        | (Raise e, w'') => (Raise e, w'')
        end
    end.

Notation "'let*' x ':=' m 'in' k" := (bind m (fun x => k))
  (at level 10, x name, m at level 100, k at level 200).
Notation "m ';;' k" := (bind m (fun _ => k))
  (at level 100, k at level 200, right associativity).

Definition lift {A} (r : result A) : M A := fun w => (r, w).

Definition log (l : log_entry) : M unit :=
  fun w => (Ok tt, set_logs (logs w ++ [l]) w).

Definition take_fresh : M nat :=
  fun w => (Ok (fresh w), set_fresh (S (fresh w)) w).

(** One request to a collaborator: it is recorded, and raises when the
    world says so. *)
Definition perform (a : action) (op : string) : M unit :=
  fun w =>
    let w' := set_actions (actions w ++ [a]) w in
    if fails w (length (actions w)) a then (Raise (CollaboratorError op), w')
    else (Ok tt, w').

(** A trace marker: recorded, never raises. *)
Definition mark (a : action) : M unit :=
  fun w => (Ok tt, set_actions (actions w ++ [a]) w).

(** *** The object store *)

Definition head_object (key : string) : M unit :=
  perform (HeadObject key) "head_object";;
  fun w =>
    match bucket w !! key with
    | Some _ => (Ok tt, w)
    | None => (Raise (CollaboratorError "head_object: 404"), w)
    end.

Definition generate_presigned_url (key : string) (expires_in : Z) : M string :=
  perform (GeneratePresignedUrl key expires_in) "generate_presigned_url";;
  let* n := take_fresh in
  fun w => (Ok (presign w key expires_in n), w).

Definition upload_fileobj (content key : string) : M unit :=
  perform (UploadFileobj key) "upload_fileobj";;
  fun w => (Ok tt, set_bucket (<[key := content]> (bucket w)) w).

Definition delete_object (key : string) : M unit :=
  perform (DeleteObject key) "delete_object";;
  fun w => (Ok tt, set_bucket (delete key (bucket w)) w).

(** *** HTTP and local files *)

Definition http_get (url : string) : M (Z * list string) :=
  perform (HttpGet url) "http_session.get";;
  fun w =>
    match web w !! url with
    | Some resp => (Ok resp, w)
    | None => (Raise (CollaboratorError "http_session.get: unreachable"), w)
    end.

Definition temp_name (n : nat) : string := "/tmp/tmp" +:+ pretty n.

(** The path [tempfile.mkstemp] is about to hand out in [w]. *)
Definition next_temp_path (w : World) : string := temp_name (fresh w).

Definition mkstemp : M string :=
  let* n := take_fresh in
  fun w => (Ok (temp_name n), set_files (<[temp_name n := EmptyString]> (files w)) w).

(** [open(path, 'wb')]: creates or truncates. *)
Definition file_open_wb (path : string) : M unit :=
  perform (FileOpen path) "open";;
  fun w => (Ok tt, set_files (<[path := EmptyString]> (files w)) w).

Definition file_write (path chunk : string) : M unit :=
  perform (FileWrite path) "write";;
  fun w =>
    (Ok tt, set_files (<[path := default EmptyString (files w !! path) +:+ chunk]> (files w)) w).

(** [open(path, 'rb')] and the read done by the upload. *)
Definition file_read (path : string) : M string :=
  perform (FileOpen path) "open";;
  fun w =>
    match files w !! path with
    | Some c => (Ok c, w)
    | None => (Raise (CollaboratorError "open: no such file"), w)
    end.

Definition path_exists (path : string) : M bool :=
  fun w => (Ok (bool_decide (is_Some (files w !! path))), w).

Definition os_remove (path : string) : M unit :=
  fun w => (Ok tt, set_files (delete path (files w)) w).

(** The [while True] loop over [response.content.read(1024)]: after the
    body's chunks the read returns the empty chunk. *)
Fixpoint download_loop (chunks : list string) (path : string) : M unit :=
  match chunks with
  | [] => perform ContentRead "content.read"
  | chunk :: rest =>
      perform ContentRead "content.read";;
      if String.eqb chunk EmptyString then ret tt
      else file_write path chunk;; download_loop rest path
  end.

Definition uuid4 : M string :=
  let* n := take_fresh in ret ("uuid-" +:+ pretty n).

(** *** The database session *)

(** [create_session()] opens a new, empty session. *)
Definition create_session : M unit :=
  perform CreateSession "create_session";;
  fun w => (Ok tt, set_session ∅ w).

Definition has_url (t : Template) : bool :=
  bool_decide (is_Some (download_url t)) || bool_decide (is_Some (image_url t)).

(** [session.execute(query)] followed by [result.scalars().all()]: the
    selected rows become session objects; the list holds their keys. *)
Definition session_execute : M (list Z) :=
  perform SessionExecute "session.execute";;
  fun w =>
    let selected := filter (fun kt : Z * Template => has_url kt.2 = true) (rows w) in
    (Ok (fst <$> map_to_list selected), set_session (selected ∪ session w) w).

Definition session_commit : M unit :=
  perform SessionCommit "session.commit";;
  fun w => (Ok tt, set_rows (session w ∪ rows w) w).

(** Attribute access on a loaded object. *)
Definition get_template (template_id : Z) : M Template :=
  fun w =>
    match session w !! template_id with
    | Some t => (Ok t, w)
    | None => (Raise (CollaboratorError "detached instance"), w)
    end.

Definition set_attr (template_id : Z) (f : field) (v : string) : M unit :=
  let* t := get_template template_id in
  fun w => (Ok tt, set_session (<[template_id := set_field f v t]> (session w)) w).

(** *** The task's methods *)

Definition seven_days : Z := 60 * 60 * 24 * 7.

(** Python truthiness of [str | None]. *)
Definition truthy (o : option string) : bool :=
  match o with
  | Some (String _ _) => true
  | _ => false
  end.

Definition _delete_s3_object (path : string) : M bool :=
  try_except
    (let* key := lift (py_index (PyStr.split "/" path) 1) in
     delete_object key;;
     ret true)
    (fun e => log (LogDeleteFailed path e);; ret false).

Definition _reupload_file (url : string) : M string :=
  let* temp_path := mkstemp in
  try_finally
    (let* resp := http_get url in
     (if resp.1 =? 200 then ret tt else raise (DownloadError url resp.1));;
     file_open_wb temp_path;;
     download_loop resp.2 temp_path;;
     let* first := lift (py_index (PyStr.split "?" url) 0) in
     let original_filename := PyStr.basename first in
     let ext := PyStr.splitext_ext original_filename in
     let* u := uuid4 in
     let unique_filename := u +:+ ext in
     let* content := file_read temp_path in
     upload_fileobj content unique_filename;;
     generate_presigned_url unique_filename seven_days)
    (let* there := path_exists temp_path in
     if there then os_remove temp_path else ret tt).

(** [ValueError(f"Could not parse S3 path from URL: {url}")] *)
Definition parse_error (url : string) : exn :=
  ValueError ("Could not parse S3 path from URL: " +:+ url).

Definition _refresh_s3_link (url : string) : M string :=
  try_except
    (let path := _extract_path_from_url url in
     if truthy path then
       let key := default EmptyString path in
       try_except
         (head_object key;;
          generate_presigned_url key seven_days)
         (fun e => log (LogReupload e);; _reupload_file url)
     else raise (parse_error url))
    (fun e => log (LogRefreshError e);; raise e).

(** One of the two blocks of [_update_template_urls]; they differ only in
    the attribute.  [updated] is the flag as it stands before the block.
    [_delete_s3_object] has no raising path, so the flag set before it is
    what the block leaves. *)
Definition update_url_block (f : field) (template_id : Z) (updated : bool) : M bool :=
  let* t := get_template template_id in
  if truthy (get_field f t) then
    let current := default EmptyString (get_field f t) in
    try_except
      (let old_path := _extract_path_from_url current in
       let* new_url := _refresh_s3_link current in
       if negb (String.eqb new_url current) then
         set_attr template_id f new_url;;
         (if truthy old_path
          then _delete_s3_object (default EmptyString old_path);; ret tt
          else ret tt);;
         ret true
       else ret updated)
      (fun e => log (LogFieldError f template_id e);; ret updated)
  else ret updated.

Definition _update_template_urls (template_id : Z) : M bool :=
  let* updated := update_url_block DownloadUrl template_id false in
  update_url_block ImageUrl template_id updated.

(** The [for] loop of [execute] with its [updated_count]. *)
Fixpoint update_all (templates : list Z) (updated_count : Z) : M Z :=
  match templates with
  | [] => ret updated_count
  | template_id :: rest =>
      mark (LoopIteration template_id);;
      let* n :=
        try_except
          (let* changed := _update_template_urls template_id in
           ret (if changed then updated_count + 1 else updated_count))
          (fun e => log (LogTemplateError template_id e);; ret updated_count) in
      update_all rest n
  end.

(** Entering the session, the store client and the HTTP session are
    requests that can fail; leaving the three [async with] blocks releases
    them and is not a failure point. *)
Definition execute : M unit :=
  try_except
    (create_session;;
     let* templates := session_execute in
     perform S3Client "aioboto3.client";;
     perform HttpSession "aiohttp.ClientSession";;
     let* updated_count := update_all templates 0 in
     session_commit;;
     log (LogCompleted updated_count))
    (fun e => log (LogTaskError e)).

(** *** Footprints

    [is_commit] and [is_iteration] classify the trace; a computation is
    [quiet] when it leaves the committed rows and the fault oracle alone
    and adds neither a commit nor a loop marker to the trace. *)

Definition is_commit (a : action) : bool :=
  match a with SessionCommit => true | _ => false end.

Definition is_iteration (a : action) : bool :=
  match a with LoopIteration _ => true | _ => false end.

Definition quiet_action (a : action) : Prop :=
  is_commit a = false /\ is_iteration a = false.

Definition quiet {A} (m : M A) : Prop :=
  forall w r w',
    m w = (r, w') ->
    rows w' = rows w /\ fails w' = fails w /\
    exists tr, actions w' = actions w ++ tr /\ Forall quiet_action tr.

(** The trace only grows; the first thing added to it is [a]. *)
Definition grows {A} (m : M A) : Prop :=
  forall w, exists tr, actions (m w).2 = actions w ++ tr.

Definition first_action {A} (a : action) (m : M A) : Prop :=
  forall w, exists tr, actions (m w).2 = actions w ++ a :: tr.

(** The four steps of [execute] before its loop all go through. *)
Definition setup_succeeds (w : World) : Prop :=
  let n := length (actions w) in
  fails w n CreateSession = false /\
  fails w (n + 1)%nat SessionExecute = false /\
  fails w (n + 2)%nat S3Client = false /\
  fails w (n + 3)%nat HttpSession = false.

(** The keys [session.execute] returns in [w]. *)
Definition queried (w : World) : list Z :=
  fst <$> map_to_list (filter (fun kt : Z * Template => has_url kt.2 = true) (rows w)).

(** The state in which the loop starts when the setup went through. *)
Definition after_setup (w : World) : World :=
  set_actions (actions w ++ [CreateSession; SessionExecute; S3Client; HttpSession])
    (set_session
       (filter (fun kt : Z * Template => has_url kt.2 = true) (rows w) ∪ ∅) w).

End S3Task.

(** ** [main.py] and [config.py] *)

Module Main.
Import Scheduler.

(** [config.S3_LINK_UPDATE_INTERVAL] *)
Definition S3_LINK_UPDATE_INTERVAL : Z := 3 * 24 * 60 * 60.

(** [S3LinkUpdaterTask()] as the scheduler sees it: the name passed to
    [BaseTask.__init__] and the [interval] property. *)
Definition s3_link_updater_task : BaseTask :=
  {| name := "s3_link_updater"; interval := inject_Z S3_LINK_UPDATE_INTERVAL |}.


(** [main.shutdown] on [Optional[TaskScheduler]]. *)
Definition main_shutdown (o : option TaskScheduler) : option TaskScheduler :=
  match o with
  | Some s => Some (shutdown s)
  | None => None
  end.

End Main.

(** ** Invariants of the scheduler state *)

Module SchedulerInv.
Import Scheduler.

(** [c] is the handle [add_task] builds for [t], started or not. *)
Definition handle_of (t : BaseTask) (c : crontab) : Prop :=
  spec c = spec (make_cron_job t) /\ func c = func (make_cron_job t).

(** Registry keys are the job ids of their tasks, and every handle sits
    under the key of a registered task and dispatches that task. *)
Definition well_formed (s : TaskScheduler) : Prop :=
  (forall k t, tasks s !! k = Some t -> k = job_id t) /\
  (forall k c, crons s !! k = Some c -> exists t, tasks s !! k = Some t /\ handle_of t c).

(** The job a callback runs. *)
Definition func_job (f : cron_func) : string :=
  match f with call_execute t => job_id t | wrapped_task t => job_id t end.

(** No handle is running. *)
Definition all_stopped (s : TaskScheduler) : Prop :=
  forall k c, crons s !! k = Some c -> started c = false.

Definition is_start (e : event) : bool :=
  match e with EvStart => true | _ => false end.

End SchedulerInv.

(** ** Frames of the link-refresh task *)

Module S3Frames.
Import S3Task.

(** [m] leaves the part of the world read by [proj] as it found it. *)
Definition keeps {X A} (proj : World -> X) (m : M A) : Prop :=
  forall w, proj (m w).2 = proj w.

(** No collaborator request raises. *)
Definition fault_free (w : World) : Prop := forall n a, fails w n a = false.

(** What the [while True] loop of [_reupload_file] writes for a body: the
    chunks up to the first empty one. *)
Fixpoint received (chunks : list string) : string :=
  match chunks with
  | [] => EmptyString
  | chunk :: rest =>
      if String.eqb chunk EmptyString then EmptyString else chunk +:+ received rest
  end.

(** The key [_reupload_file] uploads under when it starts in [w]: the
    identifier drawn after the temporary file's name, followed by the
    extension of the URL's last segment, query string apart. *)
Definition new_object_key (url : string) (w : World) : string :=
  ("uuid-" +:+ pretty (S (fresh w)))
  +:+ PyStr.splitext_ext (PyStr.basename (PyStr.upto "?" url)).

(** Each field of [t'] is the field of [t], or a URL put in place of a
    non-empty one. *)
Definition only_urls_replaced (t t' : Template) : Prop :=
  forall f, get_field f t' = get_field f t \/
            (truthy (get_field f t) = true /\ is_Some (get_field f t')).

(** The same keys, and row by row [only_urls_replaced]. *)
Definition rows_evolve (r r' : gmap Z Template) : Prop :=
  forall k,
    match r !! k, r' !! k with
    | Some t, Some t' => only_urls_replaced t t'
    | None, None => True
    | _, _ => False
    end.

End S3Frames.

(** ** Sample inputs *)

Module Samples.
Import Scheduler.

Definition t30 : BaseTask := {| name := "ping"; interval := 30 |}.
Definition t90 : BaseTask := {| name := "sweep"; interval := 90 |}.
Definition t7200 : BaseTask := {| name := "s3_link_updater"; interval := 7200 |}.

Import S3Task.

Definition signer (key : string) (expires_in : Z) (n : nat) : string :=
  "https://store.example/" +:+ key +:+ "?X-Amz-Expires=" +:+ pretty expires_in
  +:+ "&X-Amz-Signature=" +:+ pretty n.

Definition no_faults : nat -> action -> bool := fun _ _ => false.

Definition empty_world : World :=
  {| bucket := ∅; web := ∅; files := ∅; rows := ∅; session := ∅; fails := no_faults;
     presign := signer; fresh := 0; actions := []; logs := [] |}.

Definition with_fails (f : nat -> action -> bool) (w : World) : World :=
  {| bucket := bucket w; web := web w; files := files w; rows := rows w;
     session := session w; fails := f; presign := presign w; fresh := fresh w;
     actions := actions w; logs := logs w |}.

Definition with_web (pages : gmap string (Z * list string)) (w : World) : World :=
  {| bucket := bucket w; web := pages; files := files w; rows := rows w;
     session := session w; fails := fails w; presign := presign w; fresh := fresh w;
     actions := actions w; logs := logs w |}.

Definition aws_url : string := "https://lawly.s3.amazonaws.com/docs/a.pdf?X=1".
Definition path_style_url : string := "https://store.example/lawly/a.pdf?X=1".
Definition short_url : string := "https://store.example".

Definition old_url : string := "https://store.example/lawly/a.pdf?X-Amz-Signature=0".

(** Record 1 points at the key [lawly/a.pdf], which the bucket holds. *)
Definition existing_key_world : World :=
  set_rows {[ 1 := {| download_url := Some old_url; image_url := None |} ]}
    (set_bucket {[ "lawly/a.pdf" := "%PDF" ]} empty_world).

(** The same record when the bucket has lost the object and the old URL
    still answers. *)
Definition missing_key_world : World :=
  with_web {[ old_url := (200, ["%P"; "DF"]) ]}
    (set_rows {[ 1 := {| download_url := Some old_url; image_url := None |} ]} empty_world).

Definition gone_world : World :=
  with_web {[ old_url := (404, []) ]} missing_key_world.

Definition fail_on (bad : action) : nat -> action -> bool :=
  fun _ a =>
    match bad, a with
    | CreateSession, CreateSession => true
    | SessionCommit, SessionCommit => true
    | UploadFileobj _, UploadFileobj _ => true
    | GeneratePresignedUrl _ _, GeneratePresignedUrl _ _ => true
    | _, _ => false
    end.

(** Record 1 carries a URL too short to name a path, already loaded. *)
Definition short_url_world : World :=
  set_session {[ 1 := {| download_url := Some short_url; image_url := None |} ]} empty_world.

Definition upload_fails_world : World :=
  with_fails (fail_on (UploadFileobj EmptyString)) missing_key_world.

Definition no_session_world : World :=
  with_fails (fail_on CreateSession) existing_key_world.

Definition one_task : TaskScheduler := (add_task t90 new_scheduler).2.

Definition churned : TaskScheduler :=
  apply_ops [OpAdd t30; OpAdd t90; OpRemove (job_id t30)] new_scheduler.

(** The second [content.read] breaks off. *)
Definition fail_second_read : nat -> action -> bool :=
  fun n a => match a with ContentRead => (3 <=? n)%nat | _ => false end.

End Samples.

(** ** Wall-clock minutes *)

Module CronClock.
Import Scheduler.

(** Whether an expression is due at minute [T] counted from a midnight:
    the minute of the hour and the hour of the day are read off [T]. *)
Definition due_at (expr : string) (T : Z) : bool :=
  cron_due expr (T mod 60) ((T / 60) mod 24).

End CronClock.

(** ** More sample inputs *)

Module MoreSamples.
Import S3Task.

(** The record of [Samples.gone_world], loaded into the session. *)
Definition gone_loaded_world : World :=
  set_session (rows Samples.gone_world) Samples.gone_world.

(** A catalog whose only record has one field absent and one empty. *)
Definition blank_world : World :=
  set_rows {[ 7 := {| download_url := None; image_url := Some EmptyString |} ]}
    Samples.empty_world.

Definition blank_loaded_world : World := set_session (rows blank_world) blank_world.

(** The old URL would answer 200, but the GET itself raises. *)
Definition get_fails_world : World :=
  Samples.with_fails (fun _ a => match a with HttpGet _ => true | _ => false end)
    Samples.missing_key_world.


End MoreSamples.

(** * Properties *)

(** ** Strings *)

Module PyStrFacts.
Import PyStr.

Lemma app_nil (b : string) : EmptyString +:+ b = b.
Proof. reflexivity. Qed.

Lemma app_cons (c : ascii) (a b : string) : String c a +:+ b = String c (a +:+ b).
Proof. reflexivity. Qed.

Lemma length_app (a b : string) :
  String.length (a +:+ b) = (String.length a + String.length b)%nat.
Proof. induction a as [|c a IH]; simpl; [reflexivity | now rewrite IH]. Qed.

Lemma prefix_drop (sep s : string) :
  String.prefix sep s = true -> s = sep +:+ drop_chars (String.length sep) s.
Proof.
  revert s. induction sep as [|c sep IH]; intros s H.
  - reflexivity.
  - destruct s as [|d s]; simpl in H; [discriminate|].
    destruct (ascii_dec c d) as [->|]; [|discriminate].
    simpl. rewrite app_cons. f_equal. now apply IH.
Qed.

Lemma prefix_app (sep s : string) : String.prefix sep (sep +:+ s) = true.
Proof.
  induction sep as [|c sep IH]; [rewrite app_nil; destruct s; reflexivity|].
  rewrite app_cons. simpl.
  destruct (ascii_dec c c); [assumption | congruence].
Qed.

Lemma prefix_empty (sep : string) : sep <> EmptyString -> String.prefix sep EmptyString = false.
Proof. destruct sep; [congruence | reflexivity]. Qed.

Lemma find_cut_nil (sep : string) :
  find_cut sep EmptyString =
  if String.prefix sep EmptyString
  then Some (EmptyString, drop_chars (String.length sep) EmptyString) else None.
Proof. reflexivity. Qed.

Lemma find_cut_cons (sep : string) (c : ascii) (s : string) :
  find_cut sep (String c s) =
  if String.prefix sep (String c s)
  then Some (EmptyString, drop_chars (String.length sep) (String c s))
  else match find_cut sep s with
       | Some (a, b) => Some (String c a, b)
       | None => None
       end.
Proof. reflexivity. Qed.

Lemma contains_nil (sep : string) :
  contains sep EmptyString = String.prefix sep EmptyString || false.
Proof. reflexivity. Qed.

Lemma contains_cons (sep : string) (c : ascii) (s : string) :
  contains sep (String c s) = String.prefix sep (String c s) || contains sep s.
Proof. reflexivity. Qed.

Lemma find_cut_app (sep s a b : string) :
  find_cut sep s = Some (a, b) -> s = a +:+ sep +:+ b.
Proof.
  revert a b. induction s as [|c s IH]; intros a b H;
    [rewrite find_cut_nil in H | rewrite find_cut_cons in H].
  - destruct (String.prefix sep EmptyString) eqn:E; [|discriminate].
    injection H as <- <-. rewrite app_nil. now apply prefix_drop.
  - destruct (String.prefix sep (String c s)) eqn:E.
    + injection H as <- <-. rewrite app_nil. now apply prefix_drop.
    + destruct (find_cut sep s) as [[a' b']|] eqn:F; [|discriminate].
      injection H as <- <-. rewrite app_cons. f_equal. now apply IH.
Qed.

Lemma find_cut_length (sep s a b : string) :
  find_cut sep s = Some (a, b) ->
  String.length s = (String.length a + String.length sep + String.length b)%nat.
Proof.
  intros H. apply find_cut_app in H. subst s.
  rewrite !length_app. lia.
Qed.

Lemma find_cut_contains (sep s : string) :
  find_cut sep s = None <-> contains sep s = false.
Proof.
  induction s as [|c s IH];
    [rewrite find_cut_nil, contains_nil | rewrite find_cut_cons, contains_cons].
  - destruct (String.prefix sep EmptyString); simpl; split; congruence.
  - destruct (String.prefix sep (String c s)); simpl.
    + split; congruence.
    + rewrite <- IH. destruct (find_cut sep s) as [[a b]|]; split; congruence.
Qed.

(** The cut is at the leftmost occurrence: no occurrence starts earlier. *)
Lemma find_cut_leftmost (sep s a b : string) :
  find_cut sep s = Some (a, b) ->
  forall a' b', s = a' +:+ sep +:+ b' -> (String.length a <= String.length a')%nat.
Proof.
  revert a. induction s as [|c s IH]; intros a H a' b' E;
    [rewrite find_cut_nil in H | rewrite find_cut_cons in H].
  - destruct (String.prefix sep EmptyString); [|discriminate].
    injection H as <- <-. simpl. lia.
  - destruct (String.prefix sep (String c s)) eqn:P.
    + injection H as <- <-. simpl. lia.
    + destruct (find_cut sep s) as [[a0 b0]|] eqn:F; [|discriminate].
      injection H as <- <-.
      destruct a' as [|d a'].
      * rewrite app_nil in E. rewrite E, prefix_app in P. discriminate.
      * rewrite app_cons in E. injection E as -> E. simpl.
        specialize (IH a0 eq_refl a' b' E). lia.
Qed.

Lemma split_fuel_stable (sep : string) :
  sep <> EmptyString ->
  forall n m s, (String.length s <= n)%nat -> (String.length s <= m)%nat ->
  split_fuel n sep s = split_fuel m sep s.
Proof.
  intros Hsep.
  assert (Hnil : forall k, split_fuel k sep EmptyString = [EmptyString]).
  { intros [|k]; [reflexivity|].
    change (split_fuel (S k) sep EmptyString) with
      (match find_cut sep EmptyString with
       | None => [EmptyString]
       | Some (a, b) => a :: split_fuel k sep b
       end).
    now rewrite find_cut_nil, (prefix_empty sep Hsep). }
  assert (Hsep' : (0 < String.length sep)%nat).
  { destruct sep; [congruence | simpl; lia]. }
  induction n as [|n IH]; intros m s Hn Hm.
  - destruct s; [|simpl in Hn; lia]. now rewrite !Hnil.
  - destruct m as [|m].
    + destruct s; [|simpl in Hm; lia]. now rewrite !Hnil.
    + simpl. destruct (find_cut sep s) as [[a b]|] eqn:F; [|reflexivity].
      f_equal. pose proof (find_cut_length _ _ _ _ F). apply IH; lia.
Qed.

(** The fuel of [split] never runs out. *)
Lemma split_fuel_enough (sep s : string) (n : nat) :
  sep <> EmptyString -> (String.length s <= n)%nat ->
  split_fuel n sep s = split sep s.
Proof. intros Hsep Hn. unfold split. now apply split_fuel_stable. Qed.

Lemma split_unfold (sep s : string) :
  sep <> EmptyString ->
  split sep s =
  match find_cut sep s with
  | None => [s]
  | Some (a, b) => a :: split sep b
  end.
Proof.
  intros Hsep. unfold split at 1.
  destruct (String.length s) as [|n] eqn:L.
  - destruct s; [|discriminate].
    cbv [split_fuel]. now rewrite find_cut_nil, (prefix_empty sep Hsep).
  - simpl. destruct (find_cut sep s) as [[a b]|] eqn:F; [|reflexivity].
    f_equal. apply split_fuel_enough; [assumption|].
    pose proof (find_cut_length _ _ _ _ F).
    assert (0 < String.length sep)%nat by (destruct sep; [congruence | simpl; lia]).
    lia.
Qed.

Lemma split_no_sep (sep s : string) :
  sep <> EmptyString -> contains sep s = false -> split sep s = [s].
Proof.
  intros Hsep H. rewrite split_unfold by assumption.
  apply find_cut_contains in H. now rewrite H.
Qed.

Lemma split_head (sep s : string) :
  sep <> EmptyString -> split sep s !! 0%nat = Some (upto sep s).
Proof.
  intros Hsep. rewrite split_unfold by assumption. unfold upto.
  destruct (find_cut sep s) as [[a b]|]; reflexivity.
Qed.

Lemma split_second (sep s : string) :
  sep <> EmptyString ->
  split sep s !! 1%nat =
  match find_cut sep s with
  | None => None
  | Some (_, rest) => Some (upto sep rest)
  end.
Proof.
  intros Hsep. rewrite split_unfold by assumption.
  destruct (find_cut sep s) as [[a b]|]; [|reflexivity].
  simpl. now apply split_head.
Qed.

Lemma upto_length (sep s : string) : (String.length (upto sep s) <= String.length s)%nat.
Proof.
  unfold upto. destruct (find_cut sep s) as [[a b]|] eqn:F; [|lia].
  apply find_cut_length in F. lia.
Qed.

(** Joining the pieces with the separator gives the string back. *)
Lemma join_split (sep s : string) : sep <> EmptyString -> join sep (split sep s) = s.
Proof.
  intros Hsep.
  remember (String.length s) as n eqn:Hn.
  assert (Hle : (String.length s <= n)%nat) by lia. clear Hn.
  revert s Hle. induction n as [|n IH]; intros s Hle.
  - destruct s; [|simpl in Hle; lia]. rewrite split_no_sep; [reflexivity|assumption|].
    apply find_cut_contains. now rewrite find_cut_nil, (prefix_empty sep Hsep).
  - rewrite split_unfold by assumption.
    destruct (find_cut sep s) as [[a b]|] eqn:F; [|reflexivity].
    pose proof (find_cut_length _ _ _ _ F) as L.
    assert (0 < String.length sep)%nat by (destruct sep; [congruence | simpl; lia]).
    assert (Hb : join sep (split sep b) = b) by (apply IH; lia).
    apply find_cut_app in F. subst s.
    change (join sep (a :: split sep b)) with
      (match split sep b with [] => a | _ :: _ => a +:+ sep +:+ join sep (split sep b) end).
    destruct (split sep b) eqn:E.
    + rewrite split_unfold in E by assumption.
      destruct (find_cut sep b) as [[? ?]|]; discriminate.
    + now rewrite Hb.
Qed.

End PyStrFacts.

(** ** Path extraction on examples *)

Example extract_virtual_hosted :
  _extract_path_from_url "https://lawly.s3.amazonaws.com/docs/a.pdf?X=1" = Some "docs/a.pdf?X=1".
Proof. reflexivity. Qed.

Example extract_path_style :
  _extract_path_from_url "https://storage.example.org/bucket/a.pdf?X=1" = Some "bucket/a.pdf".
Proof. reflexivity. Qed.

Example extract_too_short :
  _extract_path_from_url "https://storage.example.org" = None.
Proof. reflexivity. Qed.

Example extract_marker_without_slash :
  _extract_path_from_url "https://b.s3.amazonaws.com" = None.
Proof. reflexivity. Qed.

Example extract_marker_twice :
  _extract_path_from_url "https://b.s3.amazonaws.com/k1/s3.amazonaws.com/k2" = Some "k1/".
Proof. reflexivity. Qed.

Example splitext_examples :
  PyStr.splitext_ext "a.tar.gz" = ".gz" /\ PyStr.splitext_ext ".bashrc" = "" /\
  PyStr.splitext_ext "..x.y" = ".y" /\ PyStr.splitext_ext "noext" = "" /\
  PyStr.basename "https://h/b/k.pdf" = "k.pdf".
Proof. repeat split; reflexivity. Qed.

(** ** The scheduler *)

Module SchedulerFacts.
Import Scheduler.

Lemma py_int_nonneg (q : Q) : (0 <= q)%Q -> py_int q = Qfloor q.
Proof.
  destruct q as [a b]. unfold Qle, py_int, Qfloor. simpl. intros H.
  apply Z.quot_div_nonneg; lia.
Qed.

Lemma Qfloor_div_pos (q : Q) (k : positive) :
  Qfloor (q / inject_Z (Zpos k)) = Qfloor q / Zpos k.
Proof.
  destruct q as [a b]. unfold Qdiv, Qmult, Qinv, inject_Z, Qfloor. simpl.
  rewrite Z.mul_1_r, Pos2Z.inj_mul. symmetry. apply Z.div_div; lia.
Qed.

Lemma Qfloor_ge (q : Q) (z : Z) : (inject_Z z <= q)%Q -> z <= Qfloor q.
Proof. intros H. rewrite <- (Qfloor_Z z). now apply Qfloor_resp_le. Qed.

Lemma Qfloor_lt (q : Q) (z : Z) : (q < inject_Z z)%Q -> Qfloor q < z.
Proof.
  destruct q as [a b]. unfold Qlt, inject_Z, Qfloor. simpl. intros H.
  apply Z.div_lt_upper_bound; lia.
Qed.

Lemma cron_due_every_minute (minute hour : Z) : cron_due "* * * * *" minute hour = true.
Proof. reflexivity. Qed.

Lemma cron_due_every_two_hours (minute hour : Z) :
  cron_due "0 */2 * * *" minute hour = (minute =? 0) && (hour mod 2 =? 0).
Proof. reflexivity. Qed.

Lemma make_cron_job_minutes (t : BaseTask) :
  (60 <= interval t)%Q -> (interval t < 3600)%Q ->
  make_cron_job t =
  {| spec := if Qfloor (interval t / 60) =? 1 then "* * * * *"
             else "*/" +:+ pretty (Qfloor (interval t / 60)) +:+ " * * * *";
     func := call_execute t; started := false |}.
Proof.
  intros Hlo Hhi.
  assert (H0 : (0 <= interval t)%Q) by (eapply Qle_trans; [|exact Hlo]; discriminate).
  pose proof (Qfloor_ge _ 60 Hlo) as H1. pose proof (Qfloor_lt _ 3600 Hhi) as H2.
  unfold make_cron_job, cron_expr. rewrite (py_int_nonneg _ H0).
  change (interval t / 60)%Q with (interval t / inject_Z (Zpos 60))%Q.
  rewrite Qfloor_div_pos. set (n := Qfloor (interval t)) in *.
  assert (1 <= n / 60 < 60) by (split; [apply Z.div_le_lower_bound | apply Z.div_lt_upper_bound]; lia).
  destruct (Z.ltb_spec n 60); [lia|].
  destruct (Z.ltb_spec (n / 60) 60); [|lia].
  destruct (Z.ltb_spec 1 (n / 60)), (Z.eqb_spec (n / 60) 1); try lia; reflexivity.
Qed.

Lemma make_cron_job_hours (t : BaseTask) :
  (3600 <= interval t)%Q ->
  make_cron_job t =
  {| spec := if Qfloor (interval t / 3600) =? 1 then "0 * * * *"
             else "0 */" +:+ pretty (Qfloor (interval t / 3600)) +:+ " * * *";
     func := call_execute t; started := false |}.
Proof.
  intros Hlo.
  assert (H0 : (0 <= interval t)%Q) by (eapply Qle_trans; [|exact Hlo]; discriminate).
  pose proof (Qfloor_ge _ 3600 Hlo) as H1.
  unfold make_cron_job, cron_expr. rewrite (py_int_nonneg _ H0).
  change (interval t / 3600)%Q with (interval t / inject_Z (Zpos 3600))%Q.
  rewrite Qfloor_div_pos. set (n := Qfloor (interval t)) in *.
  assert (E : n / 60 / 60 = n / 3600) by (rewrite Z.div_div by lia; reflexivity).
  assert (60 <= n / 60) by (apply Z.div_le_lower_bound; lia).
  assert (1 <= n / 3600) by (apply Z.div_le_lower_bound; lia).
  destruct (Z.ltb_spec n 60); [lia|].
  destruct (Z.ltb_spec (n / 60) 60); [lia|].
  rewrite E.
  destruct (Z.ltb_spec 1 (n / 3600)), (Z.eqb_spec (n / 3600) 1); try lia; reflexivity.
Qed.

Lemma add_task_new (t : BaseTask) (s : TaskScheduler) :
  tasks s !! job_id t = None ->
  add_task t s =
  (true, {| tasks := <[job_id t := t]> (tasks s);
            crons := <[job_id t := make_cron_job t]> (crons s) |}).
Proof. intros H. unfold add_task. now rewrite H. Qed.

Lemma add_task_known (t : BaseTask) (s : TaskScheduler) :
  is_Some (tasks s !! job_id t) -> add_task t s = (false, s).
Proof. intros [t0 H]. unfold add_task. now rewrite H. Qed.

Lemma remove_task_unknown (task_id : string) (s : TaskScheduler) :
  tasks s !! task_id = None -> remove_task task_id s = (false, s).
Proof. intros H. unfold remove_task. now rewrite H. Qed.

Lemma remove_task_known (task_id : string) (s : TaskScheduler) :
  is_Some (tasks s !! task_id) ->
  remove_task task_id s =
  (true, {| tasks := delete task_id (tasks s); crons := delete task_id (crons s) |}).
Proof.
  intros [t0 H]. unfold remove_task. rewrite H.
  destruct (crons s !! task_id) eqn:E; [reflexivity|].
  now rewrite (delete_id (crons s) task_id E).
Qed.

(** The expression stored at registration.  A task registered with
    interval [I] seconds gets the cron
    expression of the every-[floor(I/60)]-minutes form when
    [60 <= I < 3600] (the every-minute expression when the quotient is 1),
    and of the every-[floor(I/3600)]-hours-at-minute-0 form when
    [3600 <= I] (the hourly expression when the quotient is 1).  For
    [I = 7200] the handle is due exactly at minute 0 of every second hour,
    and for [I = 90] it is due at every minute. *)
Theorem add_task_schedule (t : BaseTask) (s : TaskScheduler) :
  tasks s !! job_id t = None ->
  exists c,
    crons (add_task t s).2 !! job_id t = Some c /\
    ((60 <= interval t)%Q -> (interval t < 3600)%Q ->
       func c = call_execute t /\
       spec c = if Qfloor (interval t / 60) =? 1 then "* * * * *"
                else "*/" +:+ pretty (Qfloor (interval t / 60)) +:+ " * * * *") /\
    ((3600 <= interval t)%Q ->
       func c = call_execute t /\
       spec c = if Qfloor (interval t / 3600) =? 1 then "0 * * * *"
                else "0 */" +:+ pretty (Qfloor (interval t / 3600)) +:+ " * * *") /\
    ((interval t == 7200)%Q ->
       spec c = "0 */2 * * *" /\
       forall minute hour,
         cron_due (spec c) minute hour = (minute =? 0) && (hour mod 2 =? 0)) /\
    ((interval t == 90)%Q ->
       spec c = "* * * * *" /\
       forall minute hour, cron_due (spec c) minute hour = true).
Proof.
  intros Hnew. exists (make_cron_job t). rewrite (add_task_new _ _ Hnew). simpl.
  split; [apply lookup_insert_eq|].
  split; [intros Hlo Hhi; now rewrite (make_cron_job_minutes _ Hlo Hhi)|].
  split; [intros Hlo; now rewrite (make_cron_job_hours _ Hlo)|].
  split.
  - intros E.
    assert (Hlo : (3600 <= interval t)%Q) by (rewrite E; discriminate).
    rewrite (make_cron_job_hours _ Hlo).
    assert (Qfloor (interval t / 3600) = 2) as -> by (rewrite E; reflexivity).
    split; [reflexivity|]. intros. apply cron_due_every_two_hours.
  - intros E.
    assert (Hlo : (60 <= interval t)%Q) by (rewrite E; discriminate).
    assert (Hhi : (interval t < 3600)%Q) by (rewrite E; reflexivity).
    rewrite (make_cron_job_minutes _ Hlo Hhi).
    assert (Qfloor (interval t / 60) = 1) as -> by (rewrite E; reflexivity).
    split; [reflexivity|]. intros. apply cron_due_every_minute.
Qed.

Lemma add_task_schedule_witness :
  tasks new_scheduler !! job_id Samples.t7200 = None /\
  exists c, crons (add_task Samples.t7200 new_scheduler).2 !! job_id Samples.t7200 = Some c /\
            spec c = "0 */2 * * *".
Proof.
  split; [reflexivity|].
  destruct (add_task_schedule Samples.t7200 new_scheduler eq_refl)
    as (c & Hc & _ & _ & H7200 & _).
  exists c. split; [exact Hc|]. apply H7200. reflexivity.
Defined.

(** C6.  Registering a task whose identifier is already in the registry
    returns [False] and leaves the registry and the handle map as they
    were; registering a task with a new identifier returns [True] and the
    registry grows by exactly that entry. *)
Theorem add_task_duplicate_or_new (t : BaseTask) (s : TaskScheduler) :
  (is_Some (tasks s !! job_id t) -> add_task t s = (false, s)) /\
  (tasks s !! job_id t = None ->
     (add_task t s).1 = true /\
     tasks (add_task t s).2 = <[job_id t := t]> (tasks s) /\
     dom (tasks (add_task t s).2) = {[job_id t]} ∪ dom (tasks s) /\
     size (tasks (add_task t s).2) = S (size (tasks s)) /\
     (forall k, k <> job_id t -> tasks (add_task t s).2 !! k = tasks s !! k)).
Proof.
  split; [apply add_task_known|].
  intros Hnew. rewrite (add_task_new _ _ Hnew). simpl.
  repeat split.
  - apply dom_insert_L.
  - now apply map_size_insert_None.
  - intros k Hk. now apply lookup_insert_ne.
Qed.

Lemma add_task_duplicate_or_new_witness :
  is_Some (tasks Samples.one_task !! job_id Samples.t90) /\
  add_task Samples.t90 Samples.one_task = (false, Samples.one_task) /\
  tasks Samples.one_task !! job_id Samples.t30 = None /\
  size (tasks (add_task Samples.t30 Samples.one_task).2) = S (size (tasks Samples.one_task)).
Proof.
  assert (H1 : is_Some (tasks Samples.one_task !! job_id Samples.t90))
    by (eexists; reflexivity).
  assert (H2 : tasks Samples.one_task !! job_id Samples.t30 = None) by reflexivity.
  split; [exact H1|].
  split; [exact (proj1 (add_task_duplicate_or_new Samples.t90 Samples.one_task) H1)|].
  split; [exact H2|].
  exact (proj1 (proj2 (proj2 (proj2
    (proj2 (add_task_duplicate_or_new Samples.t30 Samples.one_task) H2))))).
Defined.

Lemma apply_op_paired (o : registry_op) (s : TaskScheduler) :
  dom (crons s) = dom (tasks s) ->
  dom (crons (apply_op o s)) = dom (tasks (apply_op o s)).
Proof.
  intros Hinv. destruct o as [t | task_id]; simpl.
  - destruct (tasks s !! job_id t) eqn:E.
    + now rewrite add_task_known by eauto.
    + rewrite add_task_new by assumption. simpl.
      rewrite !dom_insert_L. now rewrite Hinv.
  - destruct (tasks s !! task_id) eqn:E.
    + rewrite remove_task_known by eauto. simpl.
      rewrite !dom_delete_L. now rewrite Hinv.
    + now rewrite remove_task_unknown.
Qed.

Lemma apply_ops_paired (os : list registry_op) (s : TaskScheduler) :
  dom (crons s) = dom (tasks s) ->
  dom (crons (apply_ops os s)) = dom (tasks (apply_ops os s)).
Proof.
  revert s. induction os as [|o os IH]; intros s Hinv; [exact Hinv|].
  apply IH. now apply apply_op_paired.
Qed.

(** C9.  From a fresh scheduler, after any sequence of [add_task] and
    [remove_task] calls the handle map and the registry hold the same
    identifiers.  [shutdown] empties the handle map and keeps the registry
    (so the pairing breaks as soon as a task is registered), and
    [remove_task] on a registered task still succeeds after it. *)
Theorem registry_and_handles_paired (os : list registry_op) :
  let s := apply_ops os new_scheduler in
  dom (crons s) = dom (tasks s) /\
  crons (shutdown s) = ∅ /\
  tasks (shutdown s) = tasks s /\
  (tasks s <> ∅ -> dom (crons (shutdown s)) <> dom (tasks (shutdown s))) /\
  (forall task_id,
     is_Some (tasks s !! task_id) ->
     remove_task task_id (shutdown s) =
     (true, {| tasks := delete task_id (tasks s); crons := ∅ |})).
Proof.
  intros s. split; [apply apply_ops_paired; reflexivity|].
  split; [reflexivity|]. split; [reflexivity|]. split.
  - simpl. intros Hne Heq. apply Hne. apply dom_empty_iff_L.
    rewrite <- Heq. apply dom_empty_L.
  - intros task_id [t0 H]. unfold remove_task. simpl. rewrite H.
    now rewrite lookup_empty.
Qed.

Lemma registry_and_handles_paired_witness :
  tasks Samples.churned <> ∅ /\
  is_Some (tasks Samples.churned !! job_id Samples.t90) /\
  dom (crons Samples.churned) = dom (tasks Samples.churned) /\
  dom (crons (shutdown Samples.churned)) <> dom (tasks (shutdown Samples.churned)) /\
  (remove_task (job_id Samples.t90) (shutdown Samples.churned)).1 = true.
Proof.
  assert (H1 : tasks Samples.churned <> ∅).
  { intros E.
    assert (H : tasks Samples.churned !! job_id Samples.t90 = None)
      by (rewrite E; apply lookup_empty).
    vm_compute in H. discriminate H. }
  assert (H2 : is_Some (tasks Samples.churned !! job_id Samples.t90))
    by (eexists; reflexivity).
  destruct (registry_and_handles_paired
              [OpAdd Samples.t30; OpAdd Samples.t90; OpRemove (job_id Samples.t30)])
    as (Hpair & _ & _ & Hbreak & Hrm).
  split; [exact H1|]. split; [exact H2|]. split; [exact Hpair|].
  split; [exact (Hbreak H1)|].
  unfold Samples.churned. now rewrite (Hrm _ H2).
Defined.

(** *** The sub-minute loop *)









Lemma second_tick_second_loop :
  runners (run [EvAdd Samples.t30; EvStart; EvMinute 0 0; EvMinute 1 0] fresh_runtime)
  = [Samples.t30; Samples.t30].
Proof. vm_compute. reflexivity. Qed.

Lemma loop_survives_shutdown :
  let rt := run [EvAdd Samples.t30; EvStart; EvMinute 0 0; EvShutdown; EvRunnerTurn 0 true]
                fresh_runtime in
  crons (sched rt) = ∅ /\ runners rt = [Samples.t30] /\
  trace rt = [Executed "task_ping"; Executed "task_ping"; Slept "task_ping" 30].
Proof. vm_compute. repeat split. Qed.

End SchedulerFacts.

(** ** The link-refresh task *)

Module S3TaskFacts.
Import S3Task.

(** *** Footprints of the combinators and primitives *)

Lemma quiet_ret {A} (a : A) : quiet (ret a).
Proof.
  intros w r w' H. injection H as <- <-.
  repeat split. exists []. now rewrite app_nil_r.
Qed.

Lemma quiet_raise {A} (e : exn) : quiet (@raise A e).
Proof.
  intros w r w' H. injection H as <- <-.
  repeat split. exists []. now rewrite app_nil_r.
Qed.

Lemma quiet_lift {A} (x : result A) : quiet (lift x).
Proof.
  intros w r w' H. injection H as <- <-.
  repeat split. exists []. now rewrite app_nil_r.
Qed.

(** A step that does not touch rows, oracle or trace. *)
Lemma quiet_silent {A} (m : M A) :
  (forall w, rows (m w).2 = rows w /\ fails (m w).2 = fails w /\ actions (m w).2 = actions w) ->
  quiet m.
Proof.
  intros H w r w' E. destruct (H w) as (H1 & H2 & H3). rewrite E in *. simpl in *.
  repeat split; try assumption. exists []. now rewrite app_nil_r.
Qed.

Lemma quiet_seq (w w1 w2 : World) :
  (rows w1 = rows w /\ fails w1 = fails w /\
   exists tr, actions w1 = actions w ++ tr /\ Forall quiet_action tr) ->
  (rows w2 = rows w1 /\ fails w2 = fails w1 /\
   exists tr, actions w2 = actions w1 ++ tr /\ Forall quiet_action tr) ->
  rows w2 = rows w /\ fails w2 = fails w /\
  exists tr, actions w2 = actions w ++ tr /\ Forall quiet_action tr.
Proof.
  intros (R1 & F1 & tr1 & A1 & Q1) (R2 & F2 & tr2 & A2 & Q2).
  split; [congruence|]. split; [congruence|].
  exists (tr1 ++ tr2). split; [|now apply Forall_app].
  now rewrite A2, A1, app_assoc.
Qed.

Lemma quiet_bind {A B} (m : M A) (k : A -> M B) :
  quiet m -> (forall a, quiet (k a)) -> quiet (bind m k).
Proof.
  intros Hm Hk w r w' H. unfold bind in H.
  destruct (m w) as [[a|e] w1] eqn:E.
  - eapply quiet_seq; [exact (Hm _ _ _ E) | exact (Hk _ _ _ _ H)].
  - injection H as <- <-. exact (Hm _ _ _ E).
Qed.

Lemma quiet_try_except {A} (m : M A) (h : exn -> M A) :
  quiet m -> (forall e, quiet (h e)) -> quiet (try_except m h).
Proof.
  intros Hm Hh w r w' H. unfold try_except in H.
  destruct (m w) as [[a|e] w1] eqn:E.
  - injection H as <- <-. exact (Hm _ _ _ E).
  - eapply quiet_seq; [exact (Hm _ _ _ E) | exact (Hh _ _ _ _ H)].
Qed.

Lemma quiet_try_finally {A} (m : M A) (f : M unit) :
  quiet m -> quiet f -> quiet (try_finally m f).
Proof.
  intros Hm Hf w r w' H. unfold try_finally in H.
  destruct (m w) as [r1 w1] eqn:E. destruct (f w1) as [[u|e] w2] eqn:E2;
    injection H as <- <-;
    (eapply quiet_seq; [exact (Hm _ _ _ E) | exact (Hf _ _ _ E2)]).
Qed.

Lemma quiet_perform (a : action) (op : string) : quiet_action a -> quiet (perform a op).
Proof.
  intros Ha w r w' H. unfold perform in H.
  destruct (fails w (length (actions w)) a); injection H as <- <-;
    (repeat split; exists [a]; split; [reflexivity | now constructor]).
Qed.

Lemma quiet_if {A} (b : bool) (m1 m2 : M A) : quiet m1 -> quiet m2 -> quiet (if b then m1 else m2).
Proof. now destruct b. Qed.

Create HintDb quiet.

Ltac quiet_step :=
  first [ apply quiet_ret | apply quiet_raise | apply quiet_lift
        | apply quiet_bind; [|intros ?] | apply quiet_try_except; [|intros ?]
        | apply quiet_try_finally | apply quiet_if
        | apply quiet_perform; split; reflexivity ].

Ltac quiet_silent_step :=
  apply quiet_silent; intros ?; cbv beta;
  repeat match goal with |- context [match ?x with _ => _ end] => destruct x end;
  simpl; auto.

Lemma quiet_log (l : log_entry) : quiet (log l).
Proof. quiet_silent_step. Qed.

Lemma quiet_take_fresh : quiet take_fresh.
Proof. quiet_silent_step. Qed.

Lemma quiet_head_object (key : string) : quiet (head_object key).
Proof. unfold head_object. quiet_step; [quiet_step | quiet_silent_step]. Qed.

Lemma quiet_generate_presigned_url (key : string) (e : Z) : quiet (generate_presigned_url key e).
Proof.
  unfold generate_presigned_url. quiet_step; [quiet_step|].
  quiet_step; [apply quiet_take_fresh | quiet_silent_step].
Qed.

Lemma quiet_upload_fileobj (content key : string) : quiet (upload_fileobj content key).
Proof. unfold upload_fileobj. quiet_step; [quiet_step | quiet_silent_step]. Qed.

Lemma quiet_delete_object (key : string) : quiet (delete_object key).
Proof. unfold delete_object. quiet_step; [quiet_step | quiet_silent_step]. Qed.

Lemma quiet_http_get (url : string) : quiet (http_get url).
Proof. unfold http_get. quiet_step; [quiet_step | quiet_silent_step]. Qed.

Lemma quiet_mkstemp : quiet mkstemp.
Proof. unfold mkstemp. quiet_step; [apply quiet_take_fresh | quiet_silent_step]. Qed.

Lemma quiet_file_open_wb (path : string) : quiet (file_open_wb path).
Proof. unfold file_open_wb. quiet_step; [quiet_step | quiet_silent_step]. Qed.

Lemma quiet_file_write (path chunk : string) : quiet (file_write path chunk).
Proof. unfold file_write. quiet_step; [quiet_step | quiet_silent_step]. Qed.

Lemma quiet_file_read (path : string) : quiet (file_read path).
Proof. unfold file_read. quiet_step; [quiet_step | quiet_silent_step]. Qed.

Lemma quiet_path_exists (path : string) : quiet (path_exists path).
Proof. quiet_silent_step. Qed.

Lemma quiet_os_remove (path : string) : quiet (os_remove path).
Proof. quiet_silent_step. Qed.

Lemma quiet_uuid4 : quiet uuid4.
Proof. unfold uuid4. quiet_step; [apply quiet_take_fresh | quiet_step]. Qed.

Lemma quiet_get_template (template_id : Z) : quiet (get_template template_id).
Proof. unfold get_template. quiet_silent_step. Qed.

Lemma quiet_set_attr (template_id : Z) (f : field) (v : string) :
  quiet (set_attr template_id f v).
Proof. unfold set_attr. quiet_step; [apply quiet_get_template | quiet_silent_step]. Qed.

Lemma quiet_download_loop (chunks : list string) (path : string) :
  quiet (download_loop chunks path).
Proof.
  induction chunks as [|chunk rest IH]; simpl.
  - quiet_step.
  - quiet_step; [quiet_step|]. apply quiet_if; [quiet_step|].
    quiet_step; [apply quiet_file_write | exact IH].
Qed.

#[local] Hint Resolve quiet_log quiet_take_fresh quiet_head_object
  quiet_generate_presigned_url quiet_upload_fileobj quiet_delete_object quiet_http_get
  quiet_mkstemp quiet_file_open_wb quiet_file_write quiet_file_read quiet_path_exists
  quiet_os_remove quiet_uuid4 quiet_get_template quiet_set_attr quiet_download_loop : quiet.

Ltac quiet_auto := repeat first [ solve [auto 1 with quiet nocore] | quiet_step ].

Lemma quiet_delete_s3_object (path : string) : quiet (_delete_s3_object path).
Proof. unfold _delete_s3_object. quiet_auto. Qed.

Lemma quiet_reupload_file (url : string) : quiet (_reupload_file url).
Proof. unfold _reupload_file. quiet_auto. Qed.

Lemma quiet_refresh_s3_link (url : string) : quiet (_refresh_s3_link url).
Proof.
  pose proof quiet_reupload_file.
  unfold _refresh_s3_link. quiet_auto.
Qed.

Lemma quiet_update_url_block (f : field) (template_id : Z) (updated : bool) :
  quiet (update_url_block f template_id updated).
Proof.
  pose proof quiet_refresh_s3_link. pose proof quiet_delete_s3_object.
  unfold update_url_block. quiet_auto.
Qed.

Lemma quiet_update_template_urls (template_id : Z) : quiet (_update_template_urls template_id).
Proof.
  pose proof quiet_update_url_block.
  unfold _update_template_urls. quiet_auto.
Qed.

(** *** Small-step equations *)

Lemma bind_ok {A B} (m : M A) (k : A -> M B) (w w1 : World) (a : A) :
  m w = (Ok a, w1) -> bind m k w = k a w1.
Proof. intros H. unfold bind. now rewrite H. Qed.

Lemma bind_raise {A B} (m : M A) (k : A -> M B) (w w1 : World) (e : exn) :
  m w = (Raise e, w1) -> bind m k w = (Raise e, w1).
Proof. intros H. unfold bind. now rewrite H. Qed.

Lemma perform_ok (a : action) (op : string) (w : World) :
  fails w (length (actions w)) a = false ->
  perform a op w = (Ok tt, set_actions (actions w ++ [a]) w).
Proof. intros H. unfold perform. now rewrite H. Qed.

Lemma perform_raise (a : action) (op : string) (w : World) :
  fails w (length (actions w)) a = true ->
  perform a op w = (Raise (CollaboratorError op), set_actions (actions w ++ [a]) w).
Proof. intros H. unfold perform. now rewrite H. Qed.

(** *** The temporary file of [_reupload_file] *)

Lemma finally_remove (A : Type) (body : M A) (path : string) (w : World) :
  files (try_finally body
           (let* there := path_exists path in
            if there then os_remove path else ret tt) w).2 !! path = None.
Proof.
  unfold try_finally. destruct (body w) as [r w1].
  unfold bind, path_exists.
  destruct (bool_decide (is_Some (files w1 !! path))) eqn:E; simpl.
  - apply lookup_delete_eq.
  - apply bool_decide_eq_false in E. now apply eq_None_not_Some.
Qed.

(** C8.  Whatever happens inside [_reupload_file] (the download is
    refused, breaks off mid-stream, the upload or the signing fails, or all
    goes well), the temporary file that [mkstemp] created at its start is
    not on disk when the method exits. *)
Theorem reupload_removes_temp_file (url : string) (w : World) :
  files (_reupload_file url w).2 !! next_temp_path w = None.
Proof.
  unfold _reupload_file, next_temp_path.
  rewrite (bind_ok mkstemp _ w
             (set_files (<[temp_name (fresh w) := EmptyString]> (files w))
                        (set_fresh (S (fresh w)) w))
             (temp_name (fresh w))) by reflexivity.
  apply finally_remove.
Qed.

(** *** [_delete_s3_object] and the key of the probe *)

Lemma second_segment_shorter (path key : string) :
  PyStr.split "/" path !! 1%nat = Some key ->
  (String.length key < String.length path)%nat.
Proof.
  rewrite PyStrFacts.split_second by discriminate.
  destruct (PyStr.find_cut "/" path) as [[a rest]|] eqn:F; [|discriminate].
  intros [= <-]. apply PyStrFacts.find_cut_length in F.
  pose proof (PyStrFacts.upto_length "/" rest). simpl in F. lia.
Qed.

Lemma quiet_grows {A} (m : M A) : quiet m -> grows m.
Proof.
  intros H w. destruct (m w) as [r w'] eqn:E.
  destruct (H _ _ _ E) as (_ & _ & tr & Htr & _). now exists tr.
Qed.

Lemma first_action_perform (a : action) (op : string) : first_action a (perform a op).
Proof. intros w. exists []. unfold perform. now destruct (fails w _ a). Qed.

Lemma first_action_bind {A B} (a : action) (m : M A) (k : A -> M B) :
  first_action a m -> (forall x, grows (k x)) -> first_action a (bind m k).
Proof.
  intros Hm Hk w. destruct (Hm w) as [tr Htr]. unfold bind.
  destruct (m w) as [[x|e] w1]; simpl in *.
  - destruct (Hk x w1) as [tr' Htr']. exists (tr ++ tr').
    rewrite Htr', Htr, <- app_assoc. reflexivity.
  - now exists tr.
Qed.

Lemma first_action_try_except {A} (a : action) (m : M A) (h : exn -> M A) :
  first_action a m -> (forall e, grows (h e)) -> first_action a (try_except m h).
Proof.
  intros Hm Hh w. destruct (Hm w) as [tr Htr]. unfold try_except.
  destruct (m w) as [[x|e] w1]; simpl in *.
  - now exists tr.
  - destruct (Hh e w1) as [tr' Htr']. exists (tr ++ tr').
    rewrite Htr', Htr, <- app_assoc. reflexivity.
Qed.

Lemma refresh_probes_path (url path : string) :
  _extract_path_from_url url = Some path -> path <> EmptyString ->
  first_action (HeadObject path) (_refresh_s3_link url).
Proof.
  intros H Hne. unfold _refresh_s3_link. rewrite H.
  destruct path as [|c path]; [congruence|]. simpl.
  apply first_action_try_except.
  - apply first_action_try_except.
    + unfold head_object. apply first_action_bind.
      * apply first_action_bind; [apply first_action_perform|].
        intros x. apply quiet_grows. quiet_silent_step.
      * intros x. apply quiet_grows. apply quiet_generate_presigned_url.
    + intros e. apply quiet_grows. pose proof quiet_reupload_file. quiet_auto.
  - intros e. apply quiet_grows. quiet_auto.
Qed.

(** C10.  [_delete_s3_object] asks the store to delete the second
    slash-separated segment of the path it is given, which is never the
    path itself, the key that [_refresh_s3_link] probes with; for a path
    without a slash it makes no request and returns [False]; it never
    raises. *)
Theorem delete_uses_second_segment (path : string) (w : World) :
  (forall key,
     PyStr.split "/" path !! 1%nat = Some key ->
     key <> path /\
     actions (_delete_s3_object path w).2 = actions w ++ [DeleteObject key] /\
     (_delete_s3_object path w).1 =
       Ok (negb (fails w (length (actions w)) (DeleteObject key))) /\
     (fails w (length (actions w)) (DeleteObject key) = false ->
      bucket (_delete_s3_object path w).2 = delete key (bucket w))) /\
  (PyStr.contains "/" path = false ->
     _delete_s3_object path w =
     (Ok false, set_logs (logs w ++ [LogDeleteFailed path IndexError]) w)) /\
  (exists b, (_delete_s3_object path w).1 = Ok b) /\
  (forall url,
     _extract_path_from_url url = Some path -> path <> EmptyString ->
     exists tr, actions (_refresh_s3_link url w).2 = actions w ++ HeadObject path :: tr).
Proof.
  assert (Hkey : forall key,
            PyStr.split "/" path !! 1%nat = Some key ->
            actions (_delete_s3_object path w).2 = actions w ++ [DeleteObject key] /\
            (_delete_s3_object path w).1 =
              Ok (negb (fails w (length (actions w)) (DeleteObject key))) /\
            (fails w (length (actions w)) (DeleteObject key) = false ->
             bucket (_delete_s3_object path w).2 = delete key (bucket w))).
  { intros key Hk.
    unfold _delete_s3_object, try_except, bind, lift, py_index, delete_object, bind, perform.
    rewrite Hk.
    destruct (fails w (length (actions w)) (DeleteObject key)); simpl;
      repeat split; congruence. }
  assert (Hnone : PyStr.contains "/" path = false ->
            _delete_s3_object path w =
            (Ok false, set_logs (logs w ++ [LogDeleteFailed path IndexError]) w)).
  { intros Hc.
    unfold _delete_s3_object, try_except, bind, lift, py_index.
    rewrite PyStrFacts.split_no_sep by (assumption || discriminate). reflexivity. }
  split; [|split; [exact Hnone|split]].
  - intros key Hk. split; [|now apply Hkey].
    intros ->. apply second_segment_shorter in Hk. lia.
  - destruct (PyStr.split "/" path !! 1%nat) as [key|] eqn:Hk.
    + destruct (Hkey key eq_refl) as (_ & -> & _). eauto.
    + rewrite PyStrFacts.split_second in Hk by discriminate.
      destruct (PyStr.find_cut "/" path) as [[a rest]|] eqn:F; [discriminate|].
      apply PyStrFacts.find_cut_contains in F. rewrite (Hnone F). eauto.
  - intros url Hx Hne. apply (refresh_probes_path url path Hx Hne).
Qed.

(** *** [_extract_path_from_url] *)

Lemma refresh_aborts (url : string) (w : World) :
  truthy (_extract_path_from_url url) = false ->
  _refresh_s3_link url w =
  (Raise (parse_error url), set_logs (logs w ++ [LogRefreshError (parse_error url)]) w).
Proof. intros H. unfold _refresh_s3_link, try_except. now rewrite H. Qed.

Lemma update_block_aborts (f : field) (template_id : Z) (updated : bool) (t : Template)
      (url : string) (w : World) :
  session w !! template_id = Some t -> get_field f t = Some url -> url <> EmptyString ->
  truthy (_extract_path_from_url url) = false ->
  update_url_block f template_id updated w =
  (Ok updated,
   set_logs ((logs w ++ [LogRefreshError (parse_error url)])
             ++ [LogFieldError f template_id (parse_error url)]) w).
Proof.
  intros Hs Hf Hne Hx. unfold update_url_block.
  rewrite (bind_ok (get_template template_id) _ w w t)
    by (unfold get_template; now rewrite Hs).
  rewrite Hf. destruct url as [|c url]; [congruence|]. simpl.
  unfold try_except. rewrite (bind_raise _ _ _ _ _ (refresh_aborts _ w Hx)).
  reflexivity.
Qed.

(** C7 as stated fails on a URL that has the domain marker with nothing
    after it: the result is [None], not the text after the marker. *)
Lemma extract_path_counterexample :
  ~ (forall url,
       PyStr.contains amazon_marker url = true ->
       exists before after,
         url = before +:+ amazon_marker +:+ after /\
         _extract_path_from_url url = Some after).
Proof.
  intros H. destruct (H "https://lawly.s3.amazonaws.com" eq_refl) as (b & a & _ & E).
  vm_compute in E. discriminate E.
Qed.

(** C7, as the code has it.  With the domain marker in the URL, the result
    is the text between the first [s3.amazonaws.com/] and the next one (to
    the end when there is no next one), and [None] when the marker is not
    followed by a slash.  Without the marker, a URL of at least four
    slash-separated segments gives the segments from the fourth on, joined
    by slashes and cut before the first [?]; a shorter one gives [None].
    When there is no usable path the refresh of that field raises, the
    field's block catches it, and the record is left as it was. *)
Theorem extract_path_from_url_cases (url : string) :
  (PyStr.contains amazon_marker url = true ->
     _extract_path_from_url url =
     match PyStr.find_cut amazon_marker_slash url with
     | Some (_, rest) => Some (PyStr.upto amazon_marker_slash rest)
     | None => None
     end) /\
  (PyStr.contains amazon_marker url = false ->
     (4 <= length (PyStr.split "/" url))%nat ->
     _extract_path_from_url url =
     Some (PyStr.upto "?" (PyStr.join "/" (drop 3 (PyStr.split "/" url))))) /\
  (PyStr.contains amazon_marker url = false ->
     (length (PyStr.split "/" url) < 4)%nat ->
     _extract_path_from_url url = None) /\
  (truthy (_extract_path_from_url url) = false ->
     forall f template_id updated t w,
       session w !! template_id = Some t -> get_field f t = Some url ->
       url <> EmptyString ->
       let out := update_url_block f template_id updated w in
       out.1 = Ok updated /\ session out.2 = session w /\
       bucket out.2 = bucket w /\ actions out.2 = actions w).
Proof.
  split; [|split; [|split]].
  - intros Hc. unfold _extract_path_from_url, extract_path_body, py_index.
    rewrite Hc, PyStrFacts.split_second by discriminate.
    now destruct (PyStr.find_cut amazon_marker_slash url) as [[a rest]|].
  - intros Hc Hlen. unfold _extract_path_from_url, extract_path_body, py_index.
    rewrite Hc. destruct (Nat.leb_spec 4 (length (PyStr.split "/" url))); [|lia].
    now rewrite PyStrFacts.split_head by discriminate.
  - intros Hc Hlen. unfold _extract_path_from_url, extract_path_body.
    rewrite Hc. destruct (Nat.leb_spec 4 (length (PyStr.split "/" url))); [lia|].
    reflexivity.
  - intros Hx f template_id updated t w Hs Hf Hne out. subst out.
    rewrite (update_block_aborts _ _ _ _ _ _ Hs Hf Hne Hx). repeat split.
Qed.

Lemma extract_path_from_url_cases_witness :
  (PyStr.contains amazon_marker Samples.aws_url = true /\
   _extract_path_from_url Samples.aws_url = Some "docs/a.pdf?X=1") /\
  (PyStr.contains amazon_marker Samples.path_style_url = false /\
   (4 <= length (PyStr.split "/" Samples.path_style_url))%nat /\
   _extract_path_from_url Samples.path_style_url = Some "lawly/a.pdf") /\
  (PyStr.contains amazon_marker Samples.short_url = false /\
   (length (PyStr.split "/" Samples.short_url) < 4)%nat /\
   _extract_path_from_url Samples.short_url = None) /\
  (truthy (_extract_path_from_url Samples.short_url) = false /\
   (update_url_block DownloadUrl 1 false Samples.short_url_world).1 = Ok false /\
   session (update_url_block DownloadUrl 1 false Samples.short_url_world).2
   = session Samples.short_url_world).
Proof.
  assert (L1 : (4 <= length (PyStr.split "/" Samples.path_style_url))%nat)
    by (vm_compute; lia).
  assert (L2 : (length (PyStr.split "/" Samples.short_url) < 4)%nat)
    by (vm_compute; lia).
  assert (L3 : Samples.short_url <> EmptyString) by discriminate.
  split; [|split; [|split]].
  - split; [reflexivity|].
    rewrite (proj1 (extract_path_from_url_cases Samples.aws_url) eq_refl).
    reflexivity.
  - split; [reflexivity|]. split; [exact L1|].
    rewrite (proj1 (proj2 (extract_path_from_url_cases Samples.path_style_url)) eq_refl L1).
    reflexivity.
  - split; [reflexivity|]. split; [exact L2|].
    exact (proj1 (proj2 (proj2 (extract_path_from_url_cases Samples.short_url))) eq_refl L2).
  - split; [reflexivity|].
    destruct (proj2 (proj2 (proj2 (extract_path_from_url_cases Samples.short_url)))
                eq_refl DownloadUrl 1 false
                {| download_url := Some Samples.short_url; image_url := None |}
                Samples.short_url_world eq_refl eq_refl L3) as (H1 & H2 & _).
    split; [exact H1 | exact H2].
Defined.

(** *** The run as a whole *)

Lemma quiet_actions_filter (tr : list action) :
  Forall quiet_action tr ->
  List.filter is_iteration tr = [] /\ Forall (fun a => is_commit a = false) tr.
Proof.
  induction 1 as [|a tr [Hc Hi] _ [IH1 IH2]]; [split; constructor|].
  simpl. rewrite Hi. split; [exact IH1 | now constructor].
Qed.

Lemma filter_iteration_app (l k : list action) :
  List.filter is_iteration (l ++ k) = List.filter is_iteration l ++ List.filter is_iteration k.
Proof. apply List.filter_app. Qed.

(** One pass of the loop body: whatever [_update_template_urls] does, the
    record-level handler turns it into a count. *)
Lemma record_pass (template_id : Z) (n : Z) (w : World) :
  exists n' w',
    try_except
      (let* changed := _update_template_urls template_id in
       ret (if changed then n + 1 else n))
      (fun e => log (LogTemplateError template_id e);; ret n) w = (Ok n', w') /\
    rows w' = rows w /\ fails w' = fails w /\
    exists tr, actions w' = actions w ++ tr /\ Forall quiet_action tr.
Proof.
  set (m := try_except _ _).
  assert (Hq : quiet m).
  { pose proof quiet_update_template_urls. subst m. quiet_auto. }
  destruct (m w) as [r w'] eqn:E. specialize (Hq _ _ _ E).
  subst m. unfold try_except in E.
  destruct (bind (_update_template_urls template_id) _ w) as [[x|e] w1].
  - injection E as <- <-. eauto.
  - unfold bind, log, ret in E. injection E as <- <-. eauto.
Qed.

(** The loop never raises, whatever happens inside the records; it leaves
    one marker per queried record, in order, and never commits. *)
Lemma update_all_spec (templates : list Z) :
  forall (n : Z) (w : World),
  exists n' w',
    update_all templates n w = (Ok n', w') /\
    rows w' = rows w /\ fails w' = fails w /\
    exists body,
      actions w' = actions w ++ body /\
      Forall (fun a => is_commit a = false) body /\
      List.filter is_iteration body = LoopIteration <$> templates.
Proof.
  induction templates as [|template_id rest IH]; intros n w.
  - exists n, w. repeat split. exists []. rewrite app_nil_r. repeat split. constructor.
  - destruct (record_pass template_id n (set_actions (actions w ++ [LoopIteration template_id]) w))
      as (n1 & w1 & E1 & R1 & F1 & tr & A1 & Q1).
    destruct (IH n1 w1) as (n2 & w2 & E2 & R2 & F2 & body & A2 & C2 & I2).
    exists n2, w2. split; [|split; [|split]].
    + simpl. rewrite (bind_ok (mark _) _ w _ tt eq_refl).
      rewrite (bind_ok _ _ _ _ _ E1). exact E2.
    + now rewrite R2, R1.
    + now rewrite F2, F1.
    + destruct (quiet_actions_filter _ Q1) as [I1 C1].
      exists ([LoopIteration template_id] ++ tr ++ body). split; [|split].
      * rewrite A2, A1. simpl. now rewrite <- !app_assoc.
      * apply Forall_app. split; [now repeat constructor|]. now apply Forall_app.
      * rewrite !filter_iteration_app, I1, I2. reflexivity.
Qed.

Lemma setup_steps (w : World) (k : list Z -> M unit) :
  setup_succeeds w ->
  (create_session;;
   let* templates := session_execute in
   perform S3Client "aioboto3.client";;
   perform HttpSession "aiohttp.ClientSession";;
   k templates) w
  = k (queried w) (after_setup w).
Proof.
  intros (H1 & H2 & H3 & H4).
  unfold create_session, session_execute, bind, perform. rewrite H1. simpl.
  rewrite length_app. simpl. rewrite H2. simpl.
  rewrite !length_app. simpl. rewrite <- Nat.add_assoc. simpl. rewrite H3. simpl.
  rewrite !length_app. simpl. rewrite <- !Nat.add_assoc. simpl. rewrite H4.
  unfold after_setup, queried. simpl. rewrite <- !app_assoc. reflexivity.
Qed.

(** C2.  When the unit of work opens and the loop over the queried
    records is reached, the run's trace is the four setup steps, then the
    loop with one pass per queried record in order and no commit in it,
    then exactly one commit as the last step: the commit is invoked once,
    after every record, whatever happened inside the records. *)
Theorem execute_commits_once (w : World) :
  setup_succeeds w ->
  exists body,
    actions (execute w).2 =
      actions w ++ [CreateSession; SessionExecute; S3Client; HttpSession]
                ++ body ++ [SessionCommit] /\
    Forall (fun a => is_commit a = false) body /\
    List.filter is_iteration body = LoopIteration <$> queried w /\
    length (List.filter is_commit
              ([CreateSession; SessionExecute; S3Client; HttpSession]
               ++ body ++ [SessionCommit])) = 1%nat.
Proof.
  intros Hs.
  destruct (update_all_spec (queried w) 0 (after_setup w))
    as (n & w1 & E & R & F & body & A & C & I).
  exists body.
  assert (Hact : actions (execute w).2 =
                 actions w ++ [CreateSession; SessionExecute; S3Client; HttpSession]
                           ++ body ++ [SessionCommit]).
  { unfold execute, try_except.
    rewrite (setup_steps w
               (fun templates =>
                  let* updated_count := update_all templates 0 in
                  session_commit;; log (LogCompleted updated_count)) Hs).
    rewrite (bind_ok _ _ _ _ _ E).
    unfold session_commit, bind, perform.
    destruct (fails w1 (length (actions w1)) SessionCommit); simpl;
      rewrite A; unfold after_setup; simpl; now rewrite <- !app_assoc. }
  split; [exact Hact|]. split; [exact C|]. split; [exact I|].
  simpl. rewrite List.filter_app. simpl. rewrite length_app. simpl.
  assert (List.filter is_commit body = []) as ->; [|reflexivity].
  clear -C. induction C as [|a l Ha _ IH]; [reflexivity|]. simpl. now rewrite Ha.
Qed.

(** C5.  [execute] never raises: it returns normally in every world,
    whatever the collaborators do.  Its last log entry is either the
    completion message or the top-level error, and in the latter case the
    committed rows are what they were.  When the unit of work does not
    open (or the setup after it fails) the commit is not even invoked. *)
Theorem execute_never_raises (w : World) :
  (execute w).1 = Ok tt /\
  ((exists n, last (logs (execute w).2) = Some (LogCompleted n)) \/
   (exists e, last (logs (execute w).2) = Some (LogTaskError e) /\
              rows (execute w).2 = rows w)) /\
  (~ setup_succeeds w ->
     (exists e, logs (execute w).2 = logs w ++ [LogTaskError e]) /\
     rows (execute w).2 = rows w /\
     exists tr, actions (execute w).2 = actions w ++ tr /\
                Forall (fun a => is_commit a = false) tr).
Proof.
  destruct (fails w (length (actions w)) CreateSession) eqn:H1.
  { assert (E : execute w =
                (Ok tt, set_logs (logs w ++ [LogTaskError (CollaboratorError "create_session")])
                          (set_actions (actions w ++ [CreateSession]) w))).
    { unfold execute, try_except, create_session, bind, perform. now rewrite H1. }
    rewrite E. simpl. split; [reflexivity|]. split.
    - right. eexists. split; [apply last_snoc | reflexivity].
    - intros _. split; [eauto|]. split; [reflexivity|].
      eexists. split; [reflexivity|]. now repeat constructor. }
  destruct (fails w (length (actions w) + 1)%nat SessionExecute) eqn:H2.
  { assert (E : execute w =
                (Ok tt, set_logs (logs w ++ [LogTaskError (CollaboratorError "session.execute")])
                          (set_actions (actions w ++ [CreateSession; SessionExecute])
                             (set_session ∅ w)))).
    { unfold execute, try_except, create_session, session_execute, bind, perform.
      rewrite H1. simpl. rewrite length_app. simpl. rewrite H2. simpl.
      now rewrite <- app_assoc. }
    rewrite E. simpl. split; [reflexivity|]. split.
    - right. eexists. split; [apply last_snoc | reflexivity].
    - intros _. split; [eauto|]. split; [reflexivity|].
      eexists. split; [reflexivity|]. now repeat constructor. }
  destruct (fails w (length (actions w) + 2)%nat S3Client) eqn:H3.
  { assert (E : exists w', execute w =
                (Ok tt, set_logs (logs w ++ [LogTaskError (CollaboratorError "aioboto3.client")])
                          (set_actions (actions w ++ [CreateSession; SessionExecute; S3Client]) w'))
                /\ rows w' = rows w).
    { eexists. split; [|shelve].
      unfold execute, try_except, create_session, session_execute, bind, perform.
      rewrite H1. simpl. rewrite length_app. simpl. rewrite H2. simpl.
      rewrite !length_app. simpl. rewrite <- Nat.add_assoc. simpl. rewrite H3. simpl.
      rewrite <- !app_assoc. simpl. reflexivity. }
    Unshelve. 2: reflexivity.
    destruct E as (w' & E & R). rewrite E. simpl. split; [reflexivity|]. split.
    - right. eexists. split; [apply last_snoc | exact R].
    - intros _. split; [eauto|]. split; [exact R|].
      eexists. split; [reflexivity|]. now repeat constructor. }
  destruct (fails w (length (actions w) + 3)%nat HttpSession) eqn:H4.
  { assert (E : exists w', execute w =
                (Ok tt, set_logs (logs w ++ [LogTaskError (CollaboratorError "aiohttp.ClientSession")])
                          (set_actions (actions w ++ [CreateSession; SessionExecute; S3Client; HttpSession]) w'))
                /\ rows w' = rows w).
    { eexists. split; [|shelve].
      unfold execute, try_except, create_session, session_execute, bind, perform.
      rewrite H1. simpl. rewrite length_app. simpl. rewrite H2. simpl.
      rewrite !length_app. simpl. rewrite <- Nat.add_assoc. simpl. rewrite H3. simpl.
      rewrite !length_app. simpl. rewrite <- !Nat.add_assoc. simpl. rewrite H4. simpl.
      rewrite <- !app_assoc. simpl. reflexivity. }
    Unshelve. 2: reflexivity.
    destruct E as (w' & E & R). rewrite E. simpl. split; [reflexivity|]. split.
    - right. eexists. split; [apply last_snoc | exact R].
    - intros _. split; [eauto|]. split; [exact R|].
      eexists. split; [reflexivity|]. now repeat constructor. }
  assert (Hs : setup_succeeds w) by (repeat split; assumption).
  destruct (update_all_spec (queried w) 0 (after_setup w))
    as (n & w1 & E & R & F & body & A & C & I).
  assert (Hrun : execute w =
                 try_except (session_commit;; log (LogCompleted n))
                            (fun e => log (LogTaskError e)) w1).
  { unfold execute, try_except.
    rewrite (setup_steps w
               (fun templates =>
                  let* updated_count := update_all templates 0 in
                  session_commit;; log (LogCompleted updated_count)) Hs).
    now rewrite (bind_ok _ _ _ _ _ E). }
  rewrite Hrun. unfold try_except, session_commit, bind, perform, log.
  split; [|split].
  - now destruct (fails w1 (length (actions w1)) SessionCommit).
  - destruct (fails w1 (length (actions w1)) SessionCommit); simpl.
    + right. eexists. split; [apply last_snoc|]. now rewrite R.
    + left. eexists. apply last_snoc.
  - intros Hn. contradiction.
Qed.

Lemma execute_commits_once_witness :
  setup_succeeds Samples.upload_fails_world /\
  exists body,
    actions (execute Samples.upload_fails_world).2 =
      actions Samples.upload_fails_world
      ++ [CreateSession; SessionExecute; S3Client; HttpSession] ++ body ++ [SessionCommit] /\
    Forall (fun a => is_commit a = false) body /\
    List.filter is_iteration body = LoopIteration <$> queried Samples.upload_fails_world /\
    length (List.filter is_commit
              ([CreateSession; SessionExecute; S3Client; HttpSession]
               ++ body ++ [SessionCommit])) = 1%nat.
Proof.
  assert (Hs : setup_succeeds Samples.upload_fails_world) by (repeat split).
  split; [exact Hs | exact (execute_commits_once Samples.upload_fails_world Hs)].
Defined.

Lemma execute_never_raises_witness :
  ~ setup_succeeds Samples.no_session_world /\
  (execute Samples.no_session_world).1 = Ok tt /\
  logs (execute Samples.no_session_world).2
    = [LogTaskError (CollaboratorError "create_session")] /\
  rows (execute Samples.no_session_world).2 = rows Samples.no_session_world.
Proof.
  assert (Hn : ~ setup_succeeds Samples.no_session_world).
  { intros [H _]. vm_compute in H. discriminate H. }
  destruct (execute_never_raises Samples.no_session_world) as (Hok & _ & Hfail).
  destruct (Hfail Hn) as (_ & Hrows & _).
  split; [exact Hn|]. split; [exact Hok|]. split; [reflexivity | exact Hrows].
Defined.

Lemma delete_uses_second_segment_witness :
  PyStr.split "/" "lawly/a.pdf" !! 1%nat = Some "a.pdf" /\
  PyStr.contains "/" "a.pdf" = false /\
  actions (_delete_s3_object "lawly/a.pdf" Samples.existing_key_world).2
    = [DeleteObject "a.pdf"] /\
  _delete_s3_object "a.pdf" Samples.existing_key_world
    = (Ok false, set_logs [LogDeleteFailed "a.pdf" IndexError] Samples.existing_key_world).
Proof.
  assert (H1 : PyStr.split "/" "lawly/a.pdf" !! 1%nat = Some "a.pdf") by reflexivity.
  assert (H2 : PyStr.contains "/" "a.pdf" = false) by reflexivity.
  split; [exact H1|]. split; [exact H2|]. split.
  - exact (proj1 (proj2 (proj1 (delete_uses_second_segment "lawly/a.pdf"
                                  Samples.existing_key_world) "a.pdf" H1))).
  - exact (proj1 (proj2 (delete_uses_second_segment "a.pdf" Samples.existing_key_world)) H2).
Defined.

(** *** Refreshing a link whose object exists *)

Lemma refresh_resigns (url path : string) (w : World) :
  _extract_path_from_url url = Some path -> path <> EmptyString ->
  is_Some (bucket w !! path) ->
  fails w (length (actions w)) (HeadObject path) = false ->
  fails w (S (length (actions w))) (GeneratePresignedUrl path seven_days) = false ->
  _refresh_s3_link url w =
  (Ok (presign w path seven_days (fresh w)),
   set_fresh (S (fresh w))
     (set_actions (actions w ++ [HeadObject path; GeneratePresignedUrl path seven_days]) w)).
Proof.
  intros Hx Hne [c Hc] H1 H2.
  unfold _refresh_s3_link, try_except. rewrite Hx.
  destruct path as [|ch path]; [congruence|]. simpl.
  unfold head_object, generate_presigned_url, bind, perform, take_fresh.
  rewrite H1. simpl. rewrite Hc. simpl.
  rewrite length_app. simpl. rewrite Nat.add_1_r, H2. simpl.
  now rewrite <- app_assoc.
Qed.

(** The deletion never removes the key it was handed as a path. *)
Lemma delete_keeps_path (path : string) (w : World) :
  bucket (_delete_s3_object path w).2 !! path = bucket w !! path.
Proof.
  unfold _delete_s3_object, try_except, bind, lift, py_index.
  destruct (PyStr.split "/" path !! 1%nat) as [key|] eqn:Hk; [|reflexivity].
  assert (key <> path) by (intros ->; apply second_segment_shorter in Hk; lia).
  unfold delete_object, bind, perform.
  destruct (fails w (length (actions w)) (DeleteObject key)); simpl; [reflexivity|].
  now apply lookup_delete_ne.
Qed.

Lemma delete_keeps_session (path : string) (w : World) :
  session (_delete_s3_object path w).2 = session w.
Proof.
  unfold _delete_s3_object, try_except, bind, lift, py_index.
  destruct (PyStr.split "/" path !! 1%nat) as [key|]; [|reflexivity].
  unfold delete_object, bind, perform.
  now destruct (fails w (length (actions w)) (DeleteObject key)).
Qed.

Lemma delete_returns (path : string) (w : World) :
  exists b, (_delete_s3_object path w).1 = Ok b.
Proof.
  unfold _delete_s3_object, try_except, bind, lift, py_index.
  destruct (PyStr.split "/" path !! 1%nat) as [key|]; [|simpl; eauto].
  unfold delete_object, bind, perform.
  destruct (fails w (length (actions w)) (DeleteObject key)); simpl; eauto.
Qed.

Lemma refresh_block_value (f : field) (template_id : Z) (updated : bool)
      (t : Template) (url path content : string) (w : World) :
  session w !! template_id = Some t -> get_field f t = Some url -> url <> EmptyString ->
  _extract_path_from_url url = Some path -> path <> EmptyString ->
  bucket w !! path = Some content ->
  fails w (length (actions w)) (HeadObject path) = false ->
  fails w (S (length (actions w))) (GeneratePresignedUrl path seven_days) = false ->
  let new_url := presign w path seven_days (fresh w) in
  let w1 := set_fresh (S (fresh w))
              (set_actions (actions w ++ [HeadObject path; GeneratePresignedUrl path seven_days])
                 w) in
  let w2 := set_session (<[template_id := set_field f new_url t]> (session w)) w1 in
  update_url_block f template_id updated w =
  if String.eqb new_url url then (Ok updated, w1)
  else (Ok true, (_delete_s3_object path w2).2).
Proof.
  intros Hs Hf Hne Hx Hp Hb H1 H2 new_url w1 w2.
  pose proof (refresh_resigns url path w Hx Hp (ex_intro _ content Hb) H1 H2) as Hr.
  unfold update_url_block.
  rewrite (bind_ok (get_template template_id) _ w w t)
    by (unfold get_template; now rewrite Hs).
  rewrite Hf. destruct url as [|ch url]; [congruence|].
  change (truthy (Some (String ch url))) with true. cbv iota.
  change (default EmptyString (Some (String ch url))) with (String ch url).
  rewrite Hx. destruct path as [|pc path]; [congruence|].
  change (truthy (Some (String pc path))) with true. cbv iota.
  change (default EmptyString (Some (String pc path))) with (String pc path).
  unfold try_except. rewrite (bind_ok _ _ _ _ _ Hr).
  fold new_url. fold w1.
  destruct (String.eqb new_url (String ch url)); [reflexivity|].
  change (negb false) with true. cbv iota.
  assert (Hset : set_attr template_id f new_url w1 = (Ok tt, w2)).
  { unfold set_attr, bind, get_template. subst w1 w2. simpl. now rewrite Hs. }
  rewrite (bind_ok _ _ _ _ _ Hset).
  destruct (delete_returns (String pc path) w2) as [b Hret].
  unfold bind.
  destruct (_delete_s3_object (String pc path) w2) as [[b'|e] w3]; simpl in *;
    [reflexivity | discriminate].
Qed.

(** For every field whose URL names a key the bucket holds, when the probe
    and the signer answer: the block leaves the newly signed seven-day URL
    in the field, and the probed key is still in the bucket. *)
Lemma refresh_block_existing_key (f : field) (template_id : Z) (updated : bool)
      (t : Template) (url path content : string) (w : World) :
  session w !! template_id = Some t -> get_field f t = Some url -> url <> EmptyString ->
  _extract_path_from_url url = Some path -> path <> EmptyString ->
  bucket w !! path = Some content ->
  fails w (length (actions w)) (HeadObject path) = false ->
  fails w (S (length (actions w))) (GeneratePresignedUrl path seven_days) = false ->
  (exists b, (update_url_block f template_id updated w).1 = Ok b) /\
  get_field f <$> session (update_url_block f template_id updated w).2 !! template_id
    = Some (Some (presign w path seven_days (fresh w))) /\
  bucket (update_url_block f template_id updated w).2 !! path = Some content.
Proof.
  intros Hs Hf Hne Hx Hp Hb H1 H2.
  rewrite (refresh_block_value f template_id updated t url path content w) by assumption.
  destruct (String.eqb (presign w path seven_days (fresh w)) url) eqn:E.
  - apply String.eqb_eq in E. simpl. rewrite Hs. simpl. rewrite Hf, E.
    repeat split; eauto.
  - simpl. rewrite delete_keeps_session, delete_keeps_path. simpl.
    rewrite lookup_insert_eq. simpl.
    split; [eauto|]. split; [now destruct f | exact Hb].
Qed.

(** C1 at the failing input: record 1 points at the key [lawly/a.pdf],
    which the bucket holds.  The run probes [lawly/a.pdf], signs a new URL
    for it with [ExpiresIn = 604800], stores that URL in the record, asks
    the store to delete the key [a.pdf], and commits; the probed key
    [lawly/a.pdf] is still in the bucket. *)
Theorem existing_key_survives_refresh :
  (execute Samples.existing_key_world).1 = Ok tt /\
  actions (execute Samples.existing_key_world).2 =
    [CreateSession; SessionExecute; S3Client; HttpSession; LoopIteration 1;
     HeadObject "lawly/a.pdf"; GeneratePresignedUrl "lawly/a.pdf" 604800;
     DeleteObject "a.pdf"; SessionCommit] /\
  rows (execute Samples.existing_key_world).2 !! 1 =
    Some {| download_url := Some (Samples.signer "lawly/a.pdf" 604800 0);
            image_url := None |} /\
  bucket (execute Samples.existing_key_world).2 !! "lawly/a.pdf" = Some "%PDF".
Proof. vm_compute. repeat split. Qed.

(** *** The exit paths of [_reupload_file] *)

Example reupload_succeeds :
  let out := _reupload_file Samples.old_url Samples.missing_key_world in
  out.1 = Ok (Samples.signer "uuid-1.pdf" 604800 2) /\
  bucket out.2 !! "uuid-1.pdf" = Some "%PDF" /\
  FileOpen "/tmp/tmp0" ∈ actions out.2 /\ files out.2 = ∅.
Proof. vm_compute. repeat split. apply list_elem_of_In. simpl. tauto. Qed.

Example reupload_refused :
  let out := _reupload_file Samples.old_url Samples.gone_world in
  out.1 = Raise (DownloadError Samples.old_url 404) /\ files out.2 = ∅.
Proof. vm_compute. repeat split. Qed.

Example reupload_breaks_mid_stream :
  let out := _reupload_file Samples.old_url
               (Samples.with_fails Samples.fail_second_read Samples.missing_key_world) in
  out.1 = Raise (CollaboratorError "content.read") /\
  actions out.2 = [HttpGet Samples.old_url; FileOpen "/tmp/tmp0"; ContentRead;
                   FileWrite "/tmp/tmp0"; ContentRead] /\
  files out.2 = ∅.
Proof. vm_compute. repeat split. Qed.

Example reupload_upload_fails :
  let out := _reupload_file Samples.old_url
               (Samples.with_fails (Samples.fail_on (UploadFileobj "")) Samples.missing_key_world) in
  out.1 = Raise (CollaboratorError "upload_fileobj") /\ files out.2 = ∅.
Proof. vm_compute. repeat split. Qed.

Example reupload_presign_fails :
  let out := _reupload_file Samples.old_url
               (Samples.with_fails (Samples.fail_on (GeneratePresignedUrl "" 0))
                  Samples.missing_key_world) in
  out.1 = Raise (CollaboratorError "generate_presigned_url") /\
  bucket out.2 !! "uuid-1.pdf" = Some "%PDF" /\ files out.2 = ∅.
Proof. vm_compute. repeat split. Qed.

End S3TaskFacts.

(** ** More on the scheduler *)

Module SchedulerMore.
Import Scheduler SchedulerInv Main.

(** *** [remove_task] *)

(** An unknown identifier is refused without any change; a known one is
    removed from the registry and from the handle map, and no other entry
    of either map is touched. *)
Theorem remove_task_known_or_unknown (task_id : string) (s : TaskScheduler) :
  (tasks s !! task_id = None -> remove_task task_id s = (false, s)) /\
  (is_Some (tasks s !! task_id) ->
     (remove_task task_id s).1 = true /\
     tasks (remove_task task_id s).2 !! task_id = None /\
     crons (remove_task task_id s).2 !! task_id = None /\
     forall k, k <> task_id ->
       tasks (remove_task task_id s).2 !! k = tasks s !! k /\
       crons (remove_task task_id s).2 !! k = crons s !! k).
Proof.
  split; [apply SchedulerFacts.remove_task_unknown|].
  intros H. rewrite (SchedulerFacts.remove_task_known _ _ H). simpl.
  split; [reflexivity|]. split; [apply lookup_delete_eq|].
  split; [apply lookup_delete_eq|].
  intros k Hk. split; now apply lookup_delete_ne.
Qed.

Lemma remove_task_known_or_unknown_witness :
  is_Some (tasks Samples.one_task !! job_id Samples.t90) /\
  tasks Samples.one_task !! job_id Samples.t30 = None /\
  (remove_task (job_id Samples.t90) Samples.one_task).1 = true /\
  remove_task (job_id Samples.t30) Samples.one_task = (false, Samples.one_task).
Proof.
  assert (H1 : is_Some (tasks Samples.one_task !! job_id Samples.t90))
    by (eexists; reflexivity).
  assert (H2 : tasks Samples.one_task !! job_id Samples.t30 = None) by reflexivity.
  split; [exact H1|]. split; [exact H2|]. split.
  - exact (proj1 (proj2 (remove_task_known_or_unknown (job_id Samples.t90) Samples.one_task) H1)).
  - exact (proj1 (remove_task_known_or_unknown (job_id Samples.t30) Samples.one_task) H2).
Defined.

(** Registering a task and removing it again gives back the scheduler one
    started from, when neither map knew the identifier. *)
Theorem add_then_remove (t : BaseTask) (s : TaskScheduler) :
  tasks s !! job_id t = None -> crons s !! job_id t = None ->
  remove_task (job_id t) (add_task t s).2 = (true, s).
Proof.
  intros Ht Hc. rewrite (SchedulerFacts.add_task_new _ _ Ht). simpl.
  rewrite SchedulerFacts.remove_task_known by (simpl; rewrite lookup_insert_eq; eauto).
  simpl. rewrite !delete_insert_id by assumption. now destruct s.
Qed.

Lemma add_then_remove_witness :
  tasks Samples.one_task !! job_id Samples.t30 = None /\
  crons Samples.one_task !! job_id Samples.t30 = None /\
  remove_task (job_id Samples.t30) (add_task Samples.t30 Samples.one_task).2
  = (true, Samples.one_task).
Proof.
  split; [reflexivity|]. split; [reflexivity|].
  exact (add_then_remove Samples.t30 Samples.one_task eq_refl eq_refl).
Defined.

(** *** Identifiers *)

Lemma job_id_inj (t1 t2 : BaseTask) : job_id t1 = job_id t2 <-> name t1 = name t2.
Proof.
  unfold job_id. split; [|now intros ->].
  intros H. exact (String.app_inj "task_" _ _ H).
Qed.

(** Two tasks with the same name share their identifier whatever their
    intervals: after the first is registered the second is refused and the
    first stays, with its own schedule.  Tasks with different names never
    collide. *)
Theorem same_name_collides (t1 t2 : BaseTask) (s : TaskScheduler) :
  tasks s !! job_id t1 = None ->
  (name t1 = name t2 ->
     add_task t2 (add_task t1 s).2 = (false, (add_task t1 s).2) /\
     tasks (add_task t2 (add_task t1 s).2).2 !! job_id t2 = Some t1 /\
     crons (add_task t2 (add_task t1 s).2).2 !! job_id t2 = Some (make_cron_job t1)) /\
  (name t1 <> name t2 -> tasks s !! job_id t2 = None ->
     (add_task t2 (add_task t1 s).2).1 = true /\
     tasks (add_task t2 (add_task t1 s).2).2 !! job_id t1 = Some t1 /\
     tasks (add_task t2 (add_task t1 s).2).2 !! job_id t2 = Some t2).
Proof.
  intros Hnew. rewrite (SchedulerFacts.add_task_new _ _ Hnew). split.
  - intros Hn. apply job_id_inj in Hn.
    rewrite SchedulerFacts.add_task_known
      by (simpl; rewrite <- Hn, lookup_insert_eq; eauto).
    simpl. rewrite <- Hn, !lookup_insert_eq. repeat split.
  - intros Hn H2.
    assert (Hne : job_id t1 <> job_id t2) by (intros E; apply job_id_inj in E; congruence).
    rewrite SchedulerFacts.add_task_new by (simpl; now rewrite lookup_insert_ne).
    simpl. split; [reflexivity|]. split.
    + rewrite lookup_insert_ne by congruence. apply lookup_insert_eq.
    + apply lookup_insert_eq.
Qed.

Lemma same_name_collides_witness :
  tasks new_scheduler !! job_id Samples.t30 = None /\
  name Samples.t30 = name {| name := "ping"; interval := 7200 |} /\
  add_task {| name := "ping"; interval := 7200 |} (add_task Samples.t30 new_scheduler).2
  = (false, (add_task Samples.t30 new_scheduler).2).
Proof.
  split; [reflexivity|]. split; [reflexivity|].
  exact (proj1 (proj1 (same_name_collides Samples.t30 {| name := "ping"; interval := 7200 |}
                         new_scheduler eq_refl) eq_refl)).
Defined.

(** *** Which intervals get the sub-minute loop *)

Lemma py_int_lt (q : Q) (z : Z) : 0 < z -> (py_int q < z <-> (q < inject_Z z)%Q).
Proof.
  intros Hz. destruct q as [a b]. unfold py_int, Qlt, inject_Z. simpl.
  destruct (Z.lt_ge_cases a 0) as [Hneg|Hpos].
  - split; [nia|]. intros _.
    assert (a ÷ Z.pos b <= 0)%Z by (apply Z.quot_le_upper_bound; lia). lia.
  - rewrite Z.quot_div_nonneg by lia. split.
    + intros H. apply Z.nle_gt. intros Hc.
      assert (z <= a / Z.pos b)%Z by (apply Z.div_le_lower_bound; lia). lia.
    + intros H. apply Z.div_lt_upper_bound; lia.
Qed.

(** A task gets the self-perpetuating seconds loop exactly when its
    interval is below 60 seconds, fractional, zero and negative intervals
    included; every other task gets a handle that calls [execute]. *)
Theorem seconds_job_iff (t : BaseTask) :
  ((interval t < 60)%Q <-> make_cron_job t = _create_seconds_job t) /\
  ((60 <= interval t)%Q <-> func (make_cron_job t) = call_execute t).
Proof.
  pose proof (py_int_lt (interval t) 60 eq_refl) as H.
  change (inject_Z 60) with 60%Q in H.
  unfold make_cron_job. destruct (Z.ltb_spec (py_int (interval t)) 60) as [Hlt|Hge].
  - split.
    + split; [reflexivity|]. intros _. now apply H.
    + split; [|discriminate]. intros Hq. apply H in Hlt.
      exfalso. exact (Qlt_not_le _ _ Hlt Hq).
  - split.
    + split; [|discriminate]. intros Hq. apply H in Hq. lia.
    + split; [reflexivity|]. intros _. apply Qnot_lt_le. intros Hq. apply H in Hq. lia.
Qed.

(** *** What the scheduler state always satisfies *)

Lemma handle_of_start (t : BaseTask) (c : crontab) : handle_of t c -> handle_of t (start_cron c).
Proof. intros [H1 H2]. split; assumption. Qed.

Lemma well_formed_add (t : BaseTask) (s : TaskScheduler) :
  well_formed s -> well_formed (add_task t s).2.
Proof.
  intros [Hk Hc]. destruct (tasks s !! job_id t) eqn:E.
  - rewrite SchedulerFacts.add_task_known by eauto. now split.
  - rewrite SchedulerFacts.add_task_new by assumption. simpl. split.
    + intros k t0 H. simpl in *. destruct (decide (k = job_id t)) as [->|Hne].
      * rewrite lookup_insert_eq in H. now injection H as <-.
      * rewrite lookup_insert_ne in H by congruence. eauto.
    + intros k c H. simpl in *. destruct (decide (k = job_id t)) as [->|Hne].
      * rewrite lookup_insert_eq in H. injection H as <-.
        exists t. rewrite lookup_insert_eq. repeat split.
      * rewrite lookup_insert_ne in H by congruence.
        destruct (Hc _ _ H) as (t0 & H0 & Hh). exists t0.
        rewrite lookup_insert_ne by congruence. now split.
Qed.

Lemma well_formed_remove (task_id : string) (s : TaskScheduler) :
  well_formed s -> well_formed (remove_task task_id s).2.
Proof.
  intros [Hk Hc]. destruct (tasks s !! task_id) eqn:E.
  - rewrite SchedulerFacts.remove_task_known by eauto. simpl. split.
    + intros k t0 H. simpl in *. apply lookup_delete_Some in H as [_ H]. eauto.
    + intros k c H. simpl in *. apply lookup_delete_Some in H as [Hne H].
      destruct (Hc _ _ H) as (t0 & H0 & Hh). exists t0.
      rewrite lookup_delete_ne by congruence. now split.
  - rewrite SchedulerFacts.remove_task_unknown by assumption. now split.
Qed.

Lemma well_formed_step (e : event) (rt : Runtime) :
  well_formed (sched rt) -> well_formed (sched (step e rt)).
Proof.
  intros Hwf. destruct e as [t|task_id| | |minute hour|i ok]; simpl.
  - now apply well_formed_add.
  - now apply well_formed_remove.
  - unfold start. destruct (decide (tasks (sched rt) = ∅)); [assumption|].
    destruct Hwf as [Hk Hc]. simpl. split; [assumption|].
    intros k c H. simpl in *. rewrite lookup_fmap in H.
    destruct (crons (sched rt) !! k) as [c0|] eqn:E; [|discriminate].
    injection H as <-. destruct (Hc _ _ E) as (t0 & H0 & Hh).
    exists t0. split; [assumption | now apply handle_of_start].
  - destruct Hwf as [Hk Hc]. split; [assumption|].
    intros k c H. simpl in H. now rewrite lookup_empty in H.
  - assumption.
  - now destruct (runners rt !! i).
Qed.

Lemma run_snoc (es : list event) (e : event) (rt : Runtime) :
  run (es ++ [e]) rt = step e (run es rt).
Proof. unfold run. now rewrite foldl_snoc. Qed.

(** Whatever the callers do (register, remove, start, shut down) and
    however the clock ticks, every registry key is the job id of the task
    stored under it, and every handle the scheduler holds sits under the
    key of a registered task, carries that task's cron expression and
    calls that task. *)
Theorem scheduler_well_formed (es : list event) :
  well_formed (sched (run es fresh_runtime)).
Proof.
  induction es as [|e es IH] using rev_ind.
  - split; intros k x H; simpl in H; now rewrite lookup_empty in H.
  - rewrite run_snoc. now apply well_formed_step.
Qed.

(** *** Handles that were never started *)

Lemma all_stopped_step (e : event) (rt : Runtime) :
  is_start e = false -> all_stopped (sched rt) -> all_stopped (sched (step e rt)).
Proof.
  intros He H. destruct e as [t|task_id| | |minute hour|i ok]; simpl; [| |discriminate| | |].
  - destruct (tasks (sched rt) !! job_id t) eqn:E.
    + now rewrite SchedulerFacts.add_task_known by eauto.
    + rewrite SchedulerFacts.add_task_new by assumption. simpl.
      intros k c Hc. simpl in *. destruct (decide (k = job_id t)) as [->|Hne].
      * rewrite lookup_insert_eq in Hc. injection Hc as <-.
        unfold make_cron_job. now destruct (py_int (interval t) <? 60).
      * rewrite lookup_insert_ne in Hc by congruence. eauto.
  - destruct (tasks (sched rt) !! task_id) eqn:E.
    + rewrite SchedulerFacts.remove_task_known by eauto. simpl.
      intros k c Hc. simpl in *. apply lookup_delete_Some in Hc as [_ Hc]. eauto.
    + now rewrite SchedulerFacts.remove_task_unknown.
  - intros k c Hc. exfalso. exact (lookup_empty_Some (M:=gmap string) k c Hc).
  - assumption.
  - now destruct (runners rt !! i).
Qed.

Lemma due_funcs_all_stopped (s : TaskScheduler) (minute hour : Z) :
  all_stopped s -> due_funcs s minute hour = [].
Proof.
  intros H. unfold due_funcs.
  assert (Hl : forall kc, kc ∈ map_to_list (crons s) -> started kc.2 = false).
  { intros [k c] Hin. apply elem_of_map_to_list in Hin. eauto. }
  induction (map_to_list (crons s)) as [|kc l IH]; [reflexivity|].
  simpl. rewrite (Hl kc) by left. simpl. apply IH.
  intros kc' Hin. apply Hl. now right.
Qed.

(** Handles are created stopped ([start=False]): as long as [start] has
    not been called, a minute tick runs no task and spawns no loop,
    whatever was registered or removed before. *)
Theorem no_dispatch_before_start (es : list event) (minute hour : Z) :
  Forall (fun e => is_start e = false) es ->
  step (EvMinute minute hour) (run es fresh_runtime) = run es fresh_runtime.
Proof.
  intros Hes.
  assert (Hs : all_stopped (sched (run es fresh_runtime))).
  { induction es as [|e es IH] using rev_ind.
    - intros k c H. simpl in H. now rewrite lookup_empty in H.
    - apply Forall_app in Hes as [Hes He]. rewrite run_snoc.
      apply all_stopped_step; [now inversion He | now apply IH]. }
  simpl. rewrite (due_funcs_all_stopped _ _ _ Hs). simpl.
  rewrite !app_nil_r. now destruct (run es fresh_runtime).
Qed.

Lemma no_dispatch_before_start_witness :
  Forall (fun e => is_start e = false) [EvAdd Samples.t30; EvAdd Samples.t90] /\
  step (EvMinute 0 0) (run [EvAdd Samples.t30; EvAdd Samples.t90] fresh_runtime)
  = run [EvAdd Samples.t30; EvAdd Samples.t90] fresh_runtime.
Proof.
  assert (H : Forall (fun e => is_start e = false) [EvAdd Samples.t30; EvAdd Samples.t90])
    by (repeat constructor).
  split; [exact H | exact (no_dispatch_before_start _ 0 0 H)].
Defined.

(** *** [start] *)




(** *** After [shutdown] *)

(** Once [shutdown] has run, calling it again or calling [start] changes
    nothing: no handle exists to be started and no task is run.  A task
    that is still registered cannot be registered again, so its dispatch
    comes back only by removing it and adding it anew, which yields a
    fresh stopped handle. *)
Theorem shutdown_is_final (rt : Runtime) (t : BaseTask) :
  step EvShutdown (step EvShutdown rt) = step EvShutdown rt /\
  step EvStart (step EvShutdown rt) = step EvShutdown rt /\
  (is_Some (tasks (sched rt) !! job_id t) ->
     add_task t (sched (step EvShutdown rt)) = (false, sched (step EvShutdown rt)) /\
     crons (add_task t (remove_task (job_id t) (sched (step EvShutdown rt))).2).2 !! job_id t
     = Some (make_cron_job t)).
Proof.
  split; [reflexivity|]. split.
  - simpl. unfold start. simpl.
    destruct (decide (tasks (sched rt) = ∅)); [reflexivity|].
    rewrite fmap_empty, map_to_list_empty. simpl. now rewrite app_nil_r.
  - intros H. split.
    + now apply SchedulerFacts.add_task_known.
    + rewrite SchedulerFacts.remove_task_known by exact H.
      rewrite SchedulerFacts.add_task_new by (simpl; apply lookup_delete_eq).
      simpl. apply lookup_insert_eq.
Qed.

Lemma shutdown_is_final_witness :
  is_Some (tasks (sched (run [EvAdd Samples.t90; EvStart] fresh_runtime)) !! job_id Samples.t90) /\
  add_task Samples.t90 (sched (step EvShutdown (run [EvAdd Samples.t90; EvStart] fresh_runtime)))
  = (false, sched (step EvShutdown (run [EvAdd Samples.t90; EvStart] fresh_runtime))).
Proof.
  assert (H : is_Some (tasks (sched (run [EvAdd Samples.t90; EvStart] fresh_runtime))
                       !! job_id Samples.t90)) by (eexists; reflexivity).
  split; [exact H|].
  exact (proj1 (proj2 (proj2 (shutdown_is_final
                                (run [EvAdd Samples.t90; EvStart] fresh_runtime)
                                Samples.t90)) H)).
Defined.

(** *** [remove_task] stops the dispatch *)

Lemma due_funcs_jobs (s : TaskScheduler) (minute hour : Z) (f : cron_func) :
  well_formed s -> f ∈ due_funcs s minute hour ->
  is_Some (crons s !! func_job f).
Proof.
  intros [Hk Hc] Hin. apply list_elem_of_omap in Hin as ([k c] & Hin & Hf).
  apply elem_of_map_to_list in Hin. simpl in Hf.
  destruct (started c && cron_due (spec c) minute hour); [|discriminate].
  injection Hf as <-. destruct (Hc _ _ Hin) as (t & Ht & _ & Hfun).
  assert (func_job (func c) = k) as ->; [|eauto].
  rewrite Hfun, (Hk _ _ Ht). unfold make_cron_job.
  now destruct (py_int (interval t) <? 60).
Qed.

(** After [remove_task] on an identifier, whether it was registered or not,
    no minute tick runs a task with that identifier or spawns a loop for
    it, in any scheduler the event loop can reach. *)
Theorem removed_task_not_dispatched (es : list event) (task_id : string)
        (minute hour : Z) :
  let rt := step (EvRemove task_id) (run es fresh_runtime) in
  (Executed task_id ∉ omap called (due_funcs (sched rt) minute hour)) /\
  (forall t, t ∈ omap spawned (due_funcs (sched rt) minute hour) -> job_id t <> task_id).
Proof.
  intros rt.
  assert (Hwf : well_formed (sched rt)).
  { subst rt. rewrite <- run_snoc. apply scheduler_well_formed. }
  assert (Hgone : crons (sched rt) !! task_id = None).
  { subst rt. simpl. destruct (tasks (sched (run es fresh_runtime)) !! task_id) eqn:E.
    - rewrite SchedulerFacts.remove_task_known by eauto. simpl. apply lookup_delete_eq.
    - rewrite SchedulerFacts.remove_task_unknown by assumption.
      simpl.
      destruct (crons (sched (run es fresh_runtime)) !! task_id) as [c|] eqn:Ec; [|reflexivity].
      destruct (proj2 (scheduler_well_formed es) _ _ Ec) as (t & Ht & _). congruence. }
  split.
  - intros Hin. apply list_elem_of_omap in Hin as (f & Hf & Hcall).
    pose proof (due_funcs_jobs _ _ _ _ Hwf Hf) as [c Hc].
    destruct f as [t|t]; simpl in Hcall; [|discriminate].
    injection Hcall as Hj. cbn [func_job] in Hc. rewrite Hj, Hgone in Hc. discriminate Hc.
  - intros t Hin Hj. apply list_elem_of_omap in Hin as (f & Hf & Hsp).
    pose proof (due_funcs_jobs _ _ _ _ Hwf Hf) as [c Hc].
    destruct f as [t'|t']; simpl in Hsp; [discriminate|].
    injection Hsp as ->. cbn [func_job] in Hc. rewrite Hj, Hgone in Hc. discriminate Hc.
Qed.

(** *** [get_tasks] *)

(** [get_tasks] lists the registered tasks: after a successful
    registration it holds the new task in addition to the old ones, and
    [shutdown] does not change it. *)
Theorem get_tasks_after_add (t : BaseTask) (s : TaskScheduler) :
  tasks s !! job_id t = None ->
  get_tasks (add_task t s).2 ≡ₚ t :: get_tasks s /\
  get_tasks (shutdown (add_task t s).2) = get_tasks (add_task t s).2.
Proof.
  intros H. rewrite (SchedulerFacts.add_task_new _ _ H). unfold get_tasks. simpl.
  split; [|reflexivity].
  rewrite (map_to_list_insert (tasks s) (job_id t) t H). reflexivity.
Qed.

Lemma get_tasks_after_add_witness :
  tasks Samples.one_task !! job_id Samples.t30 = None /\
  get_tasks (add_task Samples.t30 Samples.one_task).2
  ≡ₚ Samples.t30 :: get_tasks Samples.one_task.
Proof.
  split; [reflexivity|].
  exact (proj1 (get_tasks_after_add Samples.t30 Samples.one_task eq_refl)).
Defined.

(** *** [load_tasks] *)


End SchedulerMore.

(** ** More on the link-refresh task *)

Module S3TaskMore.
Import S3Task S3Frames S3TaskFacts.

(** *** Frames *)

Lemma keeps_ret {X A} (proj : World -> X) (a : A) : keeps proj (ret a).
Proof. now intros w. Qed.

Lemma keeps_raise {X A} (proj : World -> X) (e : exn) : keeps proj (@raise A e).
Proof. now intros w. Qed.

Lemma keeps_lift {X A} (proj : World -> X) (r : result A) : keeps proj (lift r).
Proof. now intros w. Qed.

Lemma keeps_bind {X A B} (proj : World -> X) (m : M A) (k : A -> M B) :
  keeps proj m -> (forall a, keeps proj (k a)) -> keeps proj (bind m k).
Proof.
  intros Hm Hk w. specialize (Hm w). unfold bind.
  destruct (m w) as [[a|e] w1]; simpl in *; [|assumption].
  now rewrite (Hk a w1).
Qed.

Lemma keeps_try_except {X A} (proj : World -> X) (m : M A) (h : exn -> M A) :
  keeps proj m -> (forall e, keeps proj (h e)) -> keeps proj (try_except m h).
Proof.
  intros Hm Hh w. specialize (Hm w). unfold try_except.
  destruct (m w) as [[a|e] w1]; simpl in *; [assumption|].
  now rewrite (Hh e w1).
Qed.

Lemma keeps_try_finally {X A} (proj : World -> X) (m : M A) (f : M unit) :
  keeps proj m -> keeps proj f -> keeps proj (try_finally m f).
Proof.
  intros Hm Hf w. specialize (Hm w). unfold try_finally.
  destruct (m w) as [r w1]. specialize (Hf w1).
  destruct (f w1) as [[u|e] w2]; simpl in *; congruence.
Qed.

Lemma keeps_if {X A} (proj : World -> X) (b : bool) (m1 m2 : M A) :
  keeps proj m1 -> keeps proj m2 -> keeps proj (if b then m1 else m2).
Proof. now destruct b. Qed.

Ltac keeps_leaf :=
  intros ?;
  unfold head_object, generate_presigned_url, upload_fileobj, delete_object, http_get,
    mkstemp, file_open_wb, file_write, file_read, path_exists, os_remove, uuid4,
    get_template, log, take_fresh, mark, bind, perform, ret, raise, lift;
  repeat match goal with
         | |- context [match ?x with _ => _ end] =>
             lazymatch type of x with
             | prod _ _ => fail
             | _ => destruct x
             end
         end;
  simpl; try reflexivity;
  try (rewrite lookup_insert_ne by congruence; reflexivity);
  try (rewrite lookup_delete_ne by congruence; reflexivity).

Ltac keeps_step :=
  first [ apply keeps_ret | apply keeps_raise | apply keeps_lift
        | apply keeps_bind; [|intros ?] | apply keeps_try_except; [|intros ?]
        | apply keeps_try_finally | apply keeps_if ].

Ltac keeps_auto :=
  repeat first [ solve [auto 1 with nocore] | solve [keeps_leaf] | keeps_step ].

Lemma keeps_session_download_loop (chunks : list string) (path : string) :
  keeps session (download_loop chunks path).
Proof.
  induction chunks as [|chunk rest IH]; simpl; [keeps_leaf|].
  apply keeps_bind; [keeps_leaf|]. intros _. apply keeps_if; [keeps_leaf|].
  apply keeps_bind; [keeps_leaf | intros _; exact IH].
Qed.

Lemma keeps_session_delete (path : string) : keeps session (_delete_s3_object path).
Proof. intros w. apply delete_keeps_session. Qed.

Lemma keeps_session_reupload (url : string) : keeps session (_reupload_file url).
Proof.
  pose proof keeps_session_download_loop.
  unfold _reupload_file. keeps_auto.
Qed.

Lemma keeps_session_refresh (url : string) : keeps session (_refresh_s3_link url).
Proof.
  pose proof keeps_session_reupload.
  unfold _refresh_s3_link. keeps_auto.
Qed.

(** *** Files other than the temporary one *)

Lemma keeps_file_download_loop (q : string) (chunks : list string) (path : string) :
  q <> path -> keeps (fun w => files w !! q) (download_loop chunks path).
Proof.
  intros Hq. induction chunks as [|chunk rest IH]; simpl; [keeps_leaf|].
  apply keeps_bind; [keeps_leaf|]. intros _. apply keeps_if; [keeps_leaf|].
  apply keeps_bind; [keeps_leaf | intros _; exact IH].
Qed.

(** [_reupload_file] creates, writes and removes its own temporary file
    only: every other file on disk is, at exit, what it was at entry. *)
Theorem reupload_leaves_other_files (url q : string) (w : World) :
  q <> next_temp_path w ->
  files (_reupload_file url w).2 !! q = files w !! q.
Proof.
  intros Hq. unfold next_temp_path in Hq. unfold _reupload_file.
  rewrite (bind_ok mkstemp _ w
             (set_files (<[temp_name (fresh w) := EmptyString]> (files w))
                        (set_fresh (S (fresh w)) w))
             (temp_name (fresh w))) by reflexivity.
  set (w0 := set_files _ _).
  assert (H0 : files w0 !! q = files w !! q)
    by (subst w0; simpl; now apply lookup_insert_ne).
  rewrite <- H0.
  pose proof (keeps_file_download_loop q) as Hloop.
  assert (Hk : keeps (fun w => files w !! q)
                 (try_finally
                    (let* resp := http_get url in
                     (if resp.1 =? 200 then ret tt
                      else raise (DownloadError url resp.1));;
                     file_open_wb (temp_name (fresh w));;
                     download_loop resp.2 (temp_name (fresh w));;
                     let* first := lift (py_index (PyStr.split "?" url) 0) in
                     let* u := uuid4 in
                     let* content := file_read (temp_name (fresh w)) in
                     upload_fileobj content (u +:+ PyStr.splitext_ext (PyStr.basename first));;
                     generate_presigned_url (u +:+ PyStr.splitext_ext (PyStr.basename first))
                       seven_days)
                    (let* there := path_exists (temp_name (fresh w)) in
                     if there then os_remove (temp_name (fresh w)) else ret tt))).
  { apply keeps_try_finally.
    - apply keeps_bind; [keeps_leaf|]. intros resp.
      apply keeps_bind; [keeps_auto|]. intros _.
      apply keeps_bind; [keeps_leaf|]. intros _.
      apply keeps_bind; [apply Hloop; congruence|]. intros _.
      keeps_auto.
    - keeps_auto. }
  exact (Hk w0).
Qed.

Lemma reupload_leaves_other_files_witness :
  "/etc/hosts" <> next_temp_path Samples.missing_key_world /\
  files (_reupload_file Samples.old_url Samples.missing_key_world).2 !! "/etc/hosts"
  = files Samples.missing_key_world !! "/etc/hosts".
Proof.
  assert (H : "/etc/hosts" <> next_temp_path Samples.missing_key_world) by discriminate.
  split; [exact H | exact (reupload_leaves_other_files _ _ _ H)].
Defined.

(** *** Which fields a run may change *)

Lemma only_urls_replaced_refl (t : Template) : only_urls_replaced t t.
Proof. intros f. now left. Qed.

Lemma only_urls_replaced_trans (t1 t2 t3 : Template) :
  only_urls_replaced t1 t2 -> only_urls_replaced t2 t3 -> only_urls_replaced t1 t3.
Proof.
  intros H12 H23 f. destruct (H12 f) as [E12|[T1 S2]], (H23 f) as [E23|[T2 S3]].
  - left. congruence.
  - right. split; [congruence | assumption].
  - right. split; [assumption | congruence].
  - right. now split.
Qed.

Lemma rows_evolve_refl (r : gmap Z Template) : rows_evolve r r.
Proof. intros k. destruct (r !! k); [apply only_urls_replaced_refl | exact I]. Qed.

Lemma rows_evolve_trans (r1 r2 r3 : gmap Z Template) :
  rows_evolve r1 r2 -> rows_evolve r2 r3 -> rows_evolve r1 r3.
Proof.
  intros H12 H23 k. specialize (H12 k). specialize (H23 k).
  destruct (r1 !! k), (r2 !! k), (r3 !! k); try contradiction; try exact I.
  eapply only_urls_replaced_trans; eassumption.
Qed.

Lemma rows_evolve_set_field (r : gmap Z Template) (k : Z) (t : Template) (f : field)
      (v : string) :
  r !! k = Some t -> truthy (get_field f t) = true ->
  rows_evolve r (<[k := set_field f v t]> r).
Proof.
  intros Hk Ht k'. destruct (decide (k' = k)) as [->|Hne].
  - rewrite Hk, lookup_insert_eq. intros f'.
    destruct f, f'; simpl in *; eauto.
  - rewrite lookup_insert_ne by congruence.
    destruct (r !! k'); [apply only_urls_replaced_refl | exact I].
Qed.

(** What one block can do to the session: nothing, or put a URL into the
    field it handles, which then held a non-empty URL before. *)
Lemma block_session (f : field) (template_id : Z) (updated : bool) (w : World) :
  session (update_url_block f template_id updated w).2 = session w \/
  exists t v,
    session w !! template_id = Some t /\ truthy (get_field f t) = true /\
    session (update_url_block f template_id updated w).2
    = <[template_id := set_field f v t]> (session w).
Proof.
  unfold update_url_block.
  destruct (session w !! template_id) as [t|] eqn:Hs.
  2: { left. rewrite (bind_raise (get_template template_id) _ w w
                        (CollaboratorError "detached instance"))
         by (unfold get_template; now rewrite Hs).
       reflexivity. }
  rewrite (bind_ok (get_template template_id) _ w w t)
    by (unfold get_template; now rewrite Hs).
  destruct (truthy (get_field f t)) eqn:Ht; [|now left].
  set (current := default EmptyString (get_field f t)).
  unfold try_except.
  pose proof (keeps_session_refresh current w) as Hr.
  destruct (_refresh_s3_link current w) as [[new_url|e] w1] eqn:R; simpl in Hr.
  - rewrite (bind_ok _ _ _ _ _ R).
    destruct (negb (String.eqb new_url current)); [|now left].
    right. exists t, new_url. split; [reflexivity|]. split; [assumption|].
    assert (Hset : set_attr template_id f new_url w1 =
                   (Ok tt, set_session (<[template_id := set_field f new_url t]> (session w)) w1)).
    { unfold set_attr, bind, get_template. rewrite Hr, Hs. cbv beta. now rewrite Hr. }
    rewrite (bind_ok _ _ _ _ _ Hset).
    set (w2 := set_session _ _).
    assert (Hk : keeps session
                   ((if truthy (_extract_path_from_url current)
                     then _delete_s3_object
                            (default EmptyString (_extract_path_from_url current));;
                          ret tt
                     else ret tt);; ret true)).
    { pose proof keeps_session_delete. keeps_auto. }
    specialize (Hk w2).
    destruct (bind _ _ w2) as [[b|e] w3]; simpl in *; exact Hk.
  - left. rewrite (bind_raise _ _ _ _ _ R). simpl. exact Hr.
Qed.

Lemma block_rows_evolve (f : field) (template_id : Z) (updated : bool) (w : World) :
  rows_evolve (session w) (session (update_url_block f template_id updated w).2) /\
  (forall k, k <> template_id ->
     session (update_url_block f template_id updated w).2 !! k = session w !! k).
Proof.
  destruct (block_session f template_id updated w) as [->|(t & v & Hs & Ht & ->)].
  - split; [apply rows_evolve_refl | reflexivity].
  - split; [now apply rows_evolve_set_field|].
    intros k Hk. now apply lookup_insert_ne.
Qed.

(** Processing one record leaves every other loaded record alone, keeps
    the set of loaded records, and in the record itself only puts URLs in
    place of non-empty URLs: an absent or empty field is never filled. *)
Theorem update_template_urls_frame (template_id : Z) (w : World) :
  rows_evolve (session w) (session (_update_template_urls template_id w).2) /\
  (forall k, k <> template_id ->
     session (_update_template_urls template_id w).2 !! k = session w !! k).
Proof.
  unfold _update_template_urls, bind.
  destruct (block_rows_evolve DownloadUrl template_id false w) as [H1 F1].
  destruct (update_url_block DownloadUrl template_id false w) as [[u|e] w1]; simpl in *.
  - destruct (block_rows_evolve ImageUrl template_id u w1) as [H2 F2].
    split; [eapply rows_evolve_trans; eassumption|].
    intros k Hk. now rewrite F2, F1.
  - now split.
Qed.

Lemma update_all_cons (template_id : Z) (rest : list Z) (n : Z) (w : World) :
  update_all (template_id :: rest) n w =
  match _update_template_urls template_id
          (set_actions (actions w ++ [LoopIteration template_id]) w) with
  | (Ok changed, w1) => update_all rest (if changed then n + 1 else n) w1
  | (Raise e, w1) =>
      update_all rest n (set_logs (logs w1 ++ [LogTemplateError template_id e]) w1)
  end.
Proof.
  simpl. unfold bind, mark, try_except, log, ret.
  now destruct (_update_template_urls template_id _) as [[changed|e] w1].
Qed.

Lemma update_all_rows_evolve (templates : list Z) :
  forall n w, rows_evolve (session w) (session (update_all templates n w).2).
Proof.
  induction templates as [|template_id rest IH]; intros n w; [apply rows_evolve_refl|].
  rewrite update_all_cons.
  pose proof (proj1 (update_template_urls_frame template_id
                       (set_actions (actions w ++ [LoopIteration template_id]) w))) as H1.
  change (session (set_actions (actions w ++ [LoopIteration template_id]) w))
    with (session w) in H1.
  destruct (_update_template_urls template_id _) as [[changed|e] w1]; simpl in H1.
  - eapply rows_evolve_trans; [exact H1 | apply IH].
  - eapply rows_evolve_trans; [exact H1|].
    apply (IH n (set_logs (logs w1 ++ [LogTemplateError template_id e]) w1)).
Qed.

Lemma rows_evolve_commit (r selected loaded : gmap Z Template) :
  selected ⊆ r -> rows_evolve selected loaded -> rows_evolve r (loaded ∪ r).
Proof.
  intros Hsub Hev k. specialize (Hev k).
  destruct (selected !! k) as [t|] eqn:Hs.
  - assert (Hr : r !! k = Some t) by (eapply lookup_weaken; eassumption).
    rewrite Hr. destruct (loaded !! k) as [t'|] eqn:Hl; [|contradiction].
    now rewrite (lookup_union_Some_l _ _ _ _ Hl).
  - destruct (loaded !! k) eqn:Hl; [contradiction|].
    rewrite lookup_union_r by assumption.
    destruct (r !! k); [apply only_urls_replaced_refl | exact I].
Qed.

(** Whatever the collaborators do, a run of [execute] leaves the catalog
    with the same records, and in each record every field is what it was
    or is a URL that replaced a non-empty URL: no record is created or
    deleted, an absent or empty field is never filled, and a record
    without URLs is not changed. *)
Theorem execute_only_replaces_urls (w : World) :
  rows_evolve (rows w) (rows (execute w).2).
Proof.
  assert (Hsame : forall w', rows w' = rows w -> rows_evolve (rows w) (rows w'))
    by (intros w' ->; apply rows_evolve_refl).
  unfold execute, try_except.
  unfold create_session at 1, bind at 1, bind at 1, perform at 1.
  destruct (fails w (length (actions w)) CreateSession); [now apply Hsame|].
  unfold session_execute, bind at 1, bind at 1, perform at 1.
  cbn [fails actions set_actions set_session].
  destruct (fails w _ SessionExecute); [now apply Hsame|].
  unfold bind at 1, perform at 1. cbn [fails actions set_actions set_session rows].
  destruct (fails w _ S3Client); [now apply Hsame|].
  unfold bind at 1, perform at 1. cbn [fails actions set_actions set_session rows].
  destruct (fails w _ HttpSession); [now apply Hsame|].
  unfold bind at 1.
  match goal with
  | |- context [update_all ?ts ?n ?w0] =>
      pose proof (update_all_rows_evolve ts n w0) as Hev;
      destruct (update_all_spec ts n w0) as (n' & w1 & E & R & _)
  end.
  rewrite E in *. cbn [snd] in Hev.
  cbn [session rows set_actions set_session] in Hev, R.
  unfold session_commit, bind, perform, log.
  destruct (fails w1 (length (actions w1)) SessionCommit); simpl.
  - now apply Hsame.
  - rewrite R. eapply rows_evolve_commit; [|exact Hev].
    rewrite (right_id_L ∅ (∪)). apply map_filter_subseteq.
Qed.

(** *** Fields that are absent, empty, or fail to refresh *)

Lemma block_skips (f : field) (template_id : Z) (updated : bool) (t : Template) (w : World) :
  session w !! template_id = Some t -> truthy (get_field f t) = false ->
  update_url_block f template_id updated w = (Ok updated, w).
Proof.
  intros Hs Ht. unfold update_url_block.
  rewrite (bind_ok (get_template template_id) _ w w t)
    by (unfold get_template; now rewrite Hs).
  now rewrite Ht.
Qed.

(** A record whose two fields are absent or empty is passed over: no
    request goes to the store or over HTTP, nothing is logged, and the
    record counts as unchanged. *)
Theorem blank_record_skipped (template_id : Z) (t : Template) (w : World) :
  session w !! template_id = Some t ->
  truthy (download_url t) = false -> truthy (image_url t) = false ->
  _update_template_urls template_id w = (Ok false, w).
Proof.
  intros Hs Hd Hi. unfold _update_template_urls.
  rewrite (bind_ok _ _ _ _ _ (block_skips DownloadUrl template_id false t w Hs Hd)).
  exact (block_skips ImageUrl template_id false t w Hs Hi).
Qed.

Lemma blank_record_skipped_witness :
  session MoreSamples.blank_loaded_world !! 7 =
    Some {| download_url := None; image_url := Some EmptyString |} /\
  _update_template_urls 7 MoreSamples.blank_loaded_world
  = (Ok false, MoreSamples.blank_loaded_world).
Proof.
  split; [reflexivity|].
  exact (blank_record_skipped 7 {| download_url := None; image_url := Some EmptyString |}
           MoreSamples.blank_loaded_world eq_refl eq_refl eq_refl).
Defined.

(** Whatever makes [_refresh_s3_link] raise (no path, a refused or broken
    download, a failed upload or signing), the block of that field catches
    it: the field and every loaded record stay as they were, the block's
    flag is the one it was given, and the error is logged for that field
    and record. *)
Theorem failed_refresh_keeps_field (f : field) (template_id : Z) (updated : bool)
        (t : Template) (url : string) (e : exn) (w : World) :
  session w !! template_id = Some t -> get_field f t = Some url -> url <> EmptyString ->
  (_refresh_s3_link url w).1 = Raise e ->
  (update_url_block f template_id updated w).1 = Ok updated /\
  session (update_url_block f template_id updated w).2 = session w /\
  last (logs (update_url_block f template_id updated w).2)
    = Some (LogFieldError f template_id e).
Proof.
  intros Hs Hf Hne Hr. unfold update_url_block.
  rewrite (bind_ok (get_template template_id) _ w w t)
    by (unfold get_template; now rewrite Hs).
  rewrite Hf. destruct url as [|c url]; [congruence|].
  change (truthy (Some (String c url))) with true. cbv iota.
  change (default EmptyString (Some (String c url))) with (String c url).
  pose proof (keeps_session_refresh (String c url) w) as Hk.
  destruct (_refresh_s3_link (String c url) w) as [[v|e'] w1] eqn:R; simpl in Hr, Hk;
    [discriminate|]. injection Hr as ->.
  unfold try_except. rewrite (bind_raise _ _ _ _ _ R). simpl.
  split; [reflexivity|]. split; [exact Hk | apply last_snoc].
Qed.

Lemma failed_refresh_keeps_field_witness :
  (_refresh_s3_link Samples.old_url MoreSamples.gone_loaded_world).1
    = Raise (DownloadError Samples.old_url 404) /\
  (update_url_block DownloadUrl 1 false MoreSamples.gone_loaded_world).1 = Ok false /\
  session (update_url_block DownloadUrl 1 false MoreSamples.gone_loaded_world).2
    = session MoreSamples.gone_loaded_world.
Proof.
  assert (H : (_refresh_s3_link Samples.old_url MoreSamples.gone_loaded_world).1
              = Raise (DownloadError Samples.old_url 404)) by (vm_compute; reflexivity).
  assert (Hne : Samples.old_url <> EmptyString) by discriminate.
  destruct (failed_refresh_keeps_field DownloadUrl 1 false
              {| download_url := Some Samples.old_url; image_url := None |}
              Samples.old_url (DownloadError Samples.old_url 404)
              MoreSamples.gone_loaded_world eq_refl eq_refl Hne H) as (H1 & H2 & _).
  split; [exact H|]. split; [exact H1 | exact H2].
Defined.

(** *** A run with nothing to refresh *)

Lemma update_all_blank (templates : list Z) :
  forall n w,
    (forall k, k ∈ templates ->
       exists t, session w !! k = Some t /\
                 truthy (download_url t) = false /\ truthy (image_url t) = false) ->
    update_all templates n w =
    (Ok n, set_actions (actions w ++ (LoopIteration <$> templates)) w).
Proof.
  induction templates as [|template_id rest IH]; intros n w H.
  - simpl. unfold ret. rewrite app_nil_r. now destruct w.
  - rewrite update_all_cons.
    destruct (H template_id) as (t & Hs & Hd & Hi); [left|].
    rewrite (blank_record_skipped template_id t
               (set_actions (actions w ++ [LoopIteration template_id]) w) Hs Hd Hi).
    rewrite IH.
    + simpl. now rewrite <- app_assoc.
    + intros k Hk. apply H. now right.
Qed.

(** When every record of the catalog has both fields absent or empty, a
    run whose setup goes through makes no request to the store and none
    over HTTP: after the setup it only passes over the queried records and
    commits; the catalog and the bucket are unchanged. *)
Theorem execute_nothing_to_refresh (w : World) :
  setup_succeeds w ->
  (forall k t, rows w !! k = Some t ->
     truthy (download_url t) = false /\ truthy (image_url t) = false) ->
  (execute w).1 = Ok tt /\
  actions (execute w).2 =
    actions w ++ [CreateSession; SessionExecute; S3Client; HttpSession]
              ++ (LoopIteration <$> queried w) ++ [SessionCommit] /\
  rows (execute w).2 = rows w /\
  bucket (execute w).2 = bucket w /\
  files (execute w).2 = files w.
Proof.
  intros Hs Hblank.
  assert (Hsub : filter (fun kt : Z * Template => has_url kt.2 = true) (rows w) ⊆ rows w)
    by apply map_filter_subseteq.
  assert (Hloop : update_all (queried w) 0 (after_setup w) =
                  (Ok 0, set_actions (actions (after_setup w) ++ (LoopIteration <$> queried w))
                           (after_setup w))).
  { apply update_all_blank. intros k Hk. unfold queried in Hk.
    apply list_elem_of_fmap in Hk as ([k' t] & -> & Hin).
    apply elem_of_map_to_list in Hin. exists t. simpl.
    split.
    - unfold after_setup. simpl. rewrite (right_id_L ∅ (∪)). exact Hin.
    - apply (Hblank k'). eapply lookup_weaken; eassumption. }
  unfold execute, try_except.
  rewrite (setup_steps w
             (fun templates =>
                let* updated_count := update_all templates 0 in
                session_commit;; log (LogCompleted updated_count)) Hs).
  rewrite (bind_ok _ _ _ _ _ Hloop).
  unfold session_commit, bind, perform, log.
  match goal with |- context [fails ?a ?b SessionCommit] => destruct (fails a b SessionCommit) end;
    simpl; rewrite <- ?app_assoc; repeat split.
  rewrite (right_id_L ∅ (∪)). now apply map_subseteq_union.
Qed.

Lemma execute_nothing_to_refresh_witness :
  setup_succeeds MoreSamples.blank_world /\
  actions (execute MoreSamples.blank_world).2 =
    [CreateSession; SessionExecute; S3Client; HttpSession; LoopIteration 7; SessionCommit] /\
  rows (execute MoreSamples.blank_world).2 = rows MoreSamples.blank_world.
Proof.
  assert (Hs : setup_succeeds MoreSamples.blank_world) by (repeat split).
  assert (Hb : forall k t, rows MoreSamples.blank_world !! k = Some t ->
                 truthy (download_url t) = false /\ truthy (image_url t) = false).
  { intros k t H. change (rows MoreSamples.blank_world)
      with ({[ 7 := {| download_url := None; image_url := Some EmptyString |} ]}
            : gmap Z Template) in H.
    apply lookup_singleton_Some in H as [_ <-]. split; reflexivity. }
  destruct (execute_nothing_to_refresh MoreSamples.blank_world Hs Hb) as (_ & Ha & Hr & _).
  split; [exact Hs|]. split; [|exact Hr].
  rewrite Ha. reflexivity.
Defined.

(** *** The re-upload *)

Lemma string_app_nil_r (a : string) : a +:+ EmptyString = a.
Proof. induction a as [|c a IH]; [reflexivity|]. now rewrite PyStrFacts.app_cons, IH. Qed.

Lemma string_app_assoc (a b c : string) : (a +:+ b) +:+ c = a +:+ (b +:+ c).
Proof.
  induction a as [|ch a IH]; [reflexivity|]. now rewrite !PyStrFacts.app_cons, IH.
Qed.

Lemma perform_free (a : action) (op : string) (w : World) :
  fault_free w -> perform a op w = (Ok tt, set_actions (actions w ++ [a]) w).
Proof. intros H. apply perform_ok. apply H. Qed.

(** With no fault, the loop appends to the file the chunks up to the first
    empty one and changes nothing else but the trace. *)
Lemma download_loop_free (chunks : list string) (path : string) :
  forall (w : World) (c : string),
    fault_free w -> files w !! path = Some c ->
    exists w',
      download_loop chunks path w = (Ok tt, w') /\
      files w' !! path = Some (c +:+ received chunks) /\
      bucket w' = bucket w /\ fresh w' = fresh w /\ fails w' = fails w /\
      presign w' = presign w.
Proof.
  induction chunks as [|chunk rest IH]; intros w c Hf Hp.
  - exists (set_actions (actions w ++ [ContentRead]) w). simpl.
    rewrite (perform_free _ _ _ Hf), string_app_nil_r. repeat split. exact Hp.
  - simpl. rewrite (bind_ok _ _ _ _ _ (perform_free ContentRead "content.read" w Hf)).
    destruct (String.eqb chunk EmptyString).
    + eexists. split; [reflexivity|]. simpl. rewrite string_app_nil_r. repeat split. exact Hp.
    + set (w1 := set_actions (actions w ++ [ContentRead]) w).
      assert (Hw : file_write path chunk w1 =
                   (Ok tt, set_files (<[path := c +:+ chunk]> (files w))
                             (set_actions (actions w1 ++ [FileWrite path]) w1))).
      { unfold file_write. rewrite (bind_ok _ _ _ _ _ (perform_free _ _ w1 Hf)).
        simpl. now rewrite Hp. }
      rewrite (bind_ok _ _ _ _ _ Hw).
      destruct (IH (set_files (<[path := c +:+ chunk]> (files w))
                      (set_actions (actions w1 ++ [FileWrite path]) w1))
                   (c +:+ chunk) Hf (lookup_insert_eq _ _ _))
        as (w' & E & F & B & Fr & Fa & Pr).
      exists w'. split; [exact E|]. rewrite string_app_assoc in F. now repeat split.
Qed.

Lemma reupload_free_value (url : string) (chunks : list string) (w : World) :
  fault_free w -> web w !! url = Some (200, chunks) ->
  exists w',
    _reupload_file url w
    = (Ok (presign w (new_object_key url w) seven_days (S (S (fresh w)))), w') /\
    bucket w' = <[new_object_key url w := received chunks]> (bucket w).
Proof.
  intros Hf Hweb. unfold _reupload_file.
  rewrite (bind_ok mkstemp _ w
             (set_files (<[temp_name (fresh w) := EmptyString]> (files w))
                        (set_fresh (S (fresh w)) w))
             (temp_name (fresh w))) by reflexivity.
  set (p := temp_name (fresh w)). set (w0 := set_files _ _).
  assert (Hf0 : fault_free w0) by exact Hf.
  assert (Hget : http_get url w0 =
                 (Ok (200, chunks), set_actions (actions w0 ++ [HttpGet url]) w0)).
  { unfold http_get. rewrite (bind_ok _ _ _ _ _ (perform_free _ _ w0 Hf0)).
    simpl. now rewrite Hweb. }
  set (w1 := set_actions (actions w0 ++ [HttpGet url]) w0) in *.
  assert (Hopen : file_open_wb p w1 =
                  (Ok tt, set_files (<[p := EmptyString]> (files w1))
                            (set_actions (actions w1 ++ [FileOpen p]) w1))).
  { unfold file_open_wb. now rewrite (bind_ok _ _ _ _ _ (perform_free _ _ w1 Hf0)). }
  set (w2 := set_files (<[p := EmptyString]> (files w1)) _) in *.
  destruct (download_loop_free chunks p w2 EmptyString Hf0 (lookup_insert_eq _ _ _))
    as (w3 & Hloop & F3 & B3 & Fr3 & Fa3 & Pr3).
  rewrite PyStrFacts.app_nil in F3.
  assert (Hf3 : fault_free w3) by (intros n a; rewrite Fa3; apply Hf).
  set (key := new_object_key url w).
  assert (Huuid : uuid4 w3 = (Ok ("uuid-" +:+ pretty (S (fresh w))), set_fresh (S (S (fresh w))) w3)).
  { unfold uuid4, take_fresh, bind, ret. now rewrite Fr3. }
  set (w4 := set_fresh (S (S (fresh w))) w3) in *.
  assert (Hread : file_read p w4 =
                  (Ok (received chunks), set_actions (actions w4 ++ [FileOpen p]) w4)).
  { unfold file_read. rewrite (bind_ok _ _ _ _ _ (perform_free _ _ w4 Hf3)).
    simpl. now rewrite F3. }
  set (w5 := set_actions (actions w4 ++ [FileOpen p]) w4) in *.
  assert (Hup : upload_fileobj (received chunks) key w5 =
                (Ok tt, set_bucket (<[key := received chunks]> (bucket w))
                          (set_actions (actions w5 ++ [UploadFileobj key]) w5))).
  { unfold upload_fileobj. rewrite (bind_ok _ _ _ _ _ (perform_free _ _ w5 Hf3)).
    simpl. now rewrite B3. }
  set (w6 := set_bucket _ _) in *.
  assert (Hsign : generate_presigned_url key seven_days w6 =
                  (Ok (presign w key seven_days (S (S (fresh w)))),
                   set_fresh (S (S (S (fresh w))))
                     (set_actions (actions w6 ++ [GeneratePresignedUrl key seven_days]) w6))).
  { unfold generate_presigned_url.
    rewrite (bind_ok _ _ _ _ _ (perform_free _ _ w6 Hf3)).
    unfold take_fresh, bind. simpl. now rewrite Pr3. }
  set (w7 := set_fresh (S (S (S (fresh w)))) _) in *.
  unfold try_finally.
  rewrite (bind_ok _ _ _ _ _ Hget). change ((200, chunks).1 =? 200) with true. cbv iota.
  rewrite (bind_ok (ret tt) _ w1 w1 tt eq_refl).
  rewrite (bind_ok _ _ _ _ _ Hopen). change ((200, chunks).2) with chunks.
  rewrite (bind_ok _ _ _ _ _ Hloop).
  unfold py_index. rewrite (PyStrFacts.split_head "?" url) by discriminate.
  rewrite (bind_ok (lift (Ok (PyStr.upto "?" url))) _ w3 w3 _ eq_refl).
  rewrite (bind_ok _ _ _ _ _ Huuid).
  rewrite (bind_ok _ _ _ _ _ Hread).
  fold (new_object_key url w). fold key.
  rewrite (bind_ok _ _ _ _ _ Hup).
  rewrite Hsign.
  unfold bind, path_exists.
  destruct (bool_decide (is_Some (files w7 !! p))); simpl; eexists; split; reflexivity.
Qed.

(** When the old URL answers 200 and no collaborator fails,
    [_reupload_file] stores exactly the received bytes under the new key,
    leaves the rest of the bucket alone, returns the seven-day URL signed
    for that key, and its temporary file is gone. *)
Theorem reupload_uploads_body (url : string) (chunks : list string) (w : World) :
  fault_free w -> web w !! url = Some (200, chunks) ->
  (_reupload_file url w).1
    = Ok (presign w (new_object_key url w) seven_days (S (S (fresh w)))) /\
  bucket (_reupload_file url w).2
    = <[new_object_key url w := received chunks]> (bucket w) /\
  files (_reupload_file url w).2 !! next_temp_path w = None.
Proof.
  intros Hf Hweb.
  destruct (reupload_free_value url chunks w Hf Hweb) as (w' & E & B).
  split; [now rewrite E|]. split; [now rewrite E|].
  unfold _reupload_file, next_temp_path.
  rewrite (bind_ok mkstemp _ w
             (set_files (<[temp_name (fresh w) := EmptyString]> (files w))
                        (set_fresh (S (fresh w)) w))
             (temp_name (fresh w))) by reflexivity.
  apply finally_remove.
Qed.

Lemma reupload_uploads_body_witness :
  fault_free Samples.missing_key_world /\
  web Samples.missing_key_world !! Samples.old_url = Some (200, ["%P"; "DF"]) /\
  bucket (_reupload_file Samples.old_url Samples.missing_key_world).2
  = <[new_object_key Samples.old_url Samples.missing_key_world := "%PDF"]>
      (bucket Samples.missing_key_world).
Proof.
  assert (Hf : fault_free Samples.missing_key_world) by (intros n a; reflexivity).
  assert (Hw : web Samples.missing_key_world !! Samples.old_url = Some (200, ["%P"; "DF"]))
    by reflexivity.
  split; [exact Hf|]. split; [exact Hw|].
  exact (proj1 (proj2 (reupload_uploads_body Samples.old_url ["%P"; "DF"]
                         Samples.missing_key_world Hf Hw))).
Defined.

Lemma finally_cleanup_frame {A} (body : M A) (path : string) (w w1 : World) (r : result A) :
  body w = (r, w1) ->
  (try_finally body
     (let* there := path_exists path in
      if there then os_remove path else ret tt) w).1 = r /\
  actions (try_finally body
             (let* there := path_exists path in
              if there then os_remove path else ret tt) w).2 = actions w1 /\
  bucket (try_finally body
            (let* there := path_exists path in
             if there then os_remove path else ret tt) w).2 = bucket w1.
Proof.
  intros H. unfold try_finally. rewrite H. unfold bind, path_exists.
  destruct (bool_decide (is_Some (files w1 !! path))); simpl; repeat split.
Qed.

(** Unless the GET of the old URL answers 200 (the request itself raises,
    the URL is unreachable, or the status differs), [_reupload_file]
    raises right after the GET: nothing is uploaded, nothing is signed and
    the bucket is what it was. *)
Theorem reupload_needs_200 (url : string) (w : World) :
  fails w (length (actions w)) (HttpGet url) = true \/
  (forall chunks, web w !! url <> Some (200, chunks)) ->
  (exists e, (_reupload_file url w).1 = Raise e) /\
  actions (_reupload_file url w).2 = actions w ++ [HttpGet url] /\
  bucket (_reupload_file url w).2 = bucket w.
Proof.
  intros Hno. unfold _reupload_file.
  rewrite (bind_ok mkstemp _ w
             (set_files (<[temp_name (fresh w) := EmptyString]> (files w))
                        (set_fresh (S (fresh w)) w))
             (temp_name (fresh w))) by reflexivity.
  set (p := temp_name (fresh w)). set (w0 := set_files _ _).
  set (w1 := set_actions (actions w0 ++ [HttpGet url]) w0).
  assert (Hget : (exists e, http_get url w0 = (Raise e, w1)) \/
                 (exists status chunks, status <> 200 /\
                    http_get url w0 = (Ok (status, chunks), w1))).
  { unfold http_get, bind, perform. fold w1.
    change (fails w0) with (fails w). change (actions w0) with (actions w).
    destruct (fails w (length (actions w)) (HttpGet url)); [left; eauto|].
    destruct Hno as [Hno|Hno]; [discriminate|].
    change (web w1) with (web w).
    destruct (web w !! url) as [[status chunks]|] eqn:Hweb; [|left; eauto].
    right. exists status, chunks. split; [|reflexivity].
    intros ->. now destruct (Hno chunks). }
  match goal with
  | |- context [try_finally ?body ?fin w0] =>
      assert (Hbody : exists e, body w0 = (Raise e, w1))
  end.
  { destruct Hget as [[e He]|(status & chunks & Hst & He)].
    - exists e. now rewrite (bind_raise _ _ _ _ _ He).
    - exists (DownloadError url status). rewrite (bind_ok _ _ _ _ _ He). simpl fst.
      destruct (Z.eqb_spec status 200); [contradiction|]. reflexivity. }
  destruct Hbody as [e Hbody].
  destruct (finally_cleanup_frame _ p w0 w1 (Raise e) Hbody) as (H1 & H2 & H3).
  split; [eauto|]. split; [exact H2 | exact H3].
Qed.

Lemma reupload_needs_200_witness :
  ((forall chunks, web Samples.gone_world !! Samples.old_url <> Some (200, chunks)) /\
   actions (_reupload_file Samples.old_url Samples.gone_world).2 = [HttpGet Samples.old_url] /\
   bucket (_reupload_file Samples.old_url Samples.gone_world).2 = bucket Samples.gone_world) /\
  (fails MoreSamples.get_fails_world (length (actions MoreSamples.get_fails_world))
     (HttpGet Samples.old_url) = true /\
   web MoreSamples.get_fails_world !! Samples.old_url = Some (200, ["%P"; "DF"]) /\
   actions (_reupload_file Samples.old_url MoreSamples.get_fails_world).2
     = [HttpGet Samples.old_url] /\
   bucket (_reupload_file Samples.old_url MoreSamples.get_fails_world).2
     = bucket MoreSamples.get_fails_world).
Proof.
  assert (H : forall chunks, web Samples.gone_world !! Samples.old_url <> Some (200, chunks)).
  { intros chunks E. vm_compute in E. discriminate E. }
  assert (F : fails MoreSamples.get_fails_world (length (actions MoreSamples.get_fails_world))
                (HttpGet Samples.old_url) = true) by reflexivity.
  destruct (reupload_needs_200 Samples.old_url Samples.gone_world (or_intror H))
    as (_ & Ha & Hb).
  destruct (reupload_needs_200 Samples.old_url MoreSamples.get_fails_world (or_introl F))
    as (_ & Ha' & Hb').
  split.
  - split; [exact H|]. split; [exact Ha | exact Hb].
  - split; [exact F|]. split; [reflexivity|]. split; [exact Ha' | exact Hb'].
Defined.

(** *** Falling back to the re-upload *)

Lemma first_action_try_finally {A} (a : action) (m : M A) (f : M unit) :
  first_action a m -> grows f -> first_action a (try_finally m f).
Proof.
  intros Hm Hf w. destruct (Hm w) as [tr Htr]. unfold try_finally.
  destruct (m w) as [r w1]. simpl in Htr. destruct (Hf w1) as [tr' Htr'].
  destruct (f w1) as [[u|e] w2]; simpl in *; exists (tr ++ tr');
    rewrite Htr', Htr, <- app_assoc; reflexivity.
Qed.

Lemma reupload_starts_with_get (url : string) : first_action (HttpGet url) (_reupload_file url).
Proof.
  intros w. unfold _reupload_file.
  rewrite (bind_ok mkstemp _ w
             (set_files (<[temp_name (fresh w) := EmptyString]> (files w))
                        (set_fresh (S (fresh w)) w))
             (temp_name (fresh w))) by reflexivity.
  set (w0 := set_files _ _). change (actions w) with (actions w0).
  revert w0. apply first_action_try_finally.
  - apply first_action_bind.
    + unfold http_get. apply first_action_bind; [apply first_action_perform|].
      intros x. apply quiet_grows. quiet_silent_step.
    + intros resp. apply quiet_grows.
      pose proof quiet_file_open_wb. pose proof quiet_download_loop. pose proof quiet_uuid4.
      pose proof quiet_file_read. pose proof quiet_upload_fileobj.
      pose proof quiet_generate_presigned_url. quiet_auto.
  - apply quiet_grows. pose proof quiet_path_exists. pose proof quiet_os_remove. quiet_auto.
Qed.

(** When the probe does not find the object, or the probe itself fails,
    [_refresh_s3_link] does not give up: its next request is the HTTP GET
    of the old URL, the start of the re-upload. *)
Theorem probe_failure_falls_back (url path : string) (w : World) :
  _extract_path_from_url url = Some path -> path <> EmptyString ->
  bucket w !! path = None \/ fails w (length (actions w)) (HeadObject path) = true ->
  exists tr,
    actions (_refresh_s3_link url w).2 = actions w ++ HeadObject path :: HttpGet url :: tr.
Proof.
  intros Hx Hne Hmiss. unfold _refresh_s3_link. rewrite Hx.
  destruct path as [|c path]; [congruence|].
  change (truthy (Some (String c path))) with true. cbv iota.
  change (default EmptyString (Some (String c path))) with (String c path).
  set (key := String c path) in *.
  set (w1 := set_actions (actions w ++ [HeadObject key]) w).
  assert (Hhead : exists e, (head_object key;; generate_presigned_url key seven_days) w
                            = (Raise e, w1)).
  { unfold head_object, bind, perform. fold w1.
    destruct (fails w (length (actions w)) (HeadObject key)) eqn:F; [eauto|].
    destruct Hmiss as [Hb|Hb]; [|discriminate].
    change (bucket w1) with (bucket w). rewrite Hb. eauto. }
  destruct Hhead as [e Hhead].
  destruct (reupload_starts_with_get url (set_logs (logs w1 ++ [LogReupload e]) w1))
    as [tr Htr].
  exists tr. unfold try_except. rewrite Hhead. unfold bind at 1, log at 1.
  destruct (_reupload_file url _) as [[v|e'] w2]; simpl in *;
    rewrite Htr, <- app_assoc; reflexivity.
Qed.

Lemma probe_failure_falls_back_witness :
  _extract_path_from_url Samples.old_url = Some "lawly/a.pdf" /\
  bucket Samples.missing_key_world !! "lawly/a.pdf" = None /\
  exists tr,
    actions (_refresh_s3_link Samples.old_url Samples.missing_key_world).2
    = HeadObject "lawly/a.pdf" :: HttpGet Samples.old_url :: tr.
Proof.
  assert (Hne : "lawly/a.pdf" <> EmptyString) by discriminate.
  split; [reflexivity|]. split; [reflexivity|].
  exact (probe_failure_falls_back Samples.old_url "lawly/a.pdf" Samples.missing_key_world
           eq_refl Hne (or_introl eq_refl)).
Defined.

(** *** Path-style URLs *)

Lemma find_cut_char (c : ascii) (a b : string) :
  PyStr.contains (String c EmptyString) a = false ->
  PyStr.find_cut (String c EmptyString) (a +:+ String c b) = Some (a, b).
Proof.
  induction a as [|d a IH]; intros H.
  - rewrite PyStrFacts.app_nil, PyStrFacts.find_cut_cons. simpl.
    destruct (ascii_dec c c); [|congruence]. now destruct b.
  - rewrite PyStrFacts.contains_cons in H. apply orb_false_iff in H as [Hp Hc].
    rewrite PyStrFacts.app_cons, PyStrFacts.find_cut_cons.
    assert (Hp' : String.prefix (String c EmptyString) (String d (a +:+ String c b)) = false).
    { simpl in *. destruct (ascii_dec c d); [|reflexivity]. now destruct a. }
    rewrite Hp', (IH Hc). reflexivity.
Qed.

Lemma split_char_cons (c : ascii) (a b : string) :
  PyStr.contains (String c EmptyString) a = false ->
  PyStr.split (String c EmptyString) (a +:+ String c b)
  = a :: PyStr.split (String c EmptyString) b.
Proof.
  intros H. rewrite PyStrFacts.split_unfold by discriminate.
  now rewrite (find_cut_char c a b H).
Qed.

Lemma split_nonempty (sep s : string) : sep <> EmptyString -> (1 <= length (PyStr.split sep s))%nat.
Proof.
  intros H. rewrite PyStrFacts.split_unfold by assumption.
  destruct (PyStr.find_cut sep s) as [[a b]|]; simpl; lia.
Qed.

(** For a URL of the shape [scheme://host/path?query] without the Amazon
    marker, the extracted path is exactly [path], whatever the query
    string (so a new signature on the same object gives the same path);
    without a query string it is everything after the host's slash. *)
Theorem path_style_url_round_trip (scheme host path query : string) :
  PyStr.contains "/" scheme = false -> PyStr.contains "/" host = false ->
  PyStr.contains "?" path = false ->
  (PyStr.contains amazon_marker (scheme +:+ "//" +:+ host +:+ "/" +:+ path +:+ "?" +:+ query)
   = false ->
   _extract_path_from_url (scheme +:+ "//" +:+ host +:+ "/" +:+ path +:+ "?" +:+ query)
   = Some path) /\
  (PyStr.contains amazon_marker (scheme +:+ "//" +:+ host +:+ "/" +:+ path) = false ->
   _extract_path_from_url (scheme +:+ "//" +:+ host +:+ "/" +:+ path) = Some path).
Proof.
  intros Hs Hh Hp.
  assert (Hgen : forall rest,
            PyStr.contains amazon_marker (scheme +:+ "//" +:+ host +:+ "/" +:+ rest) = false ->
            _extract_path_from_url (scheme +:+ "//" +:+ host +:+ "/" +:+ rest)
            = Some (PyStr.upto "?" rest)).
  { intros rest Hm. unfold _extract_path_from_url, extract_path_body. rewrite Hm.
    change (scheme +:+ "//" +:+ host +:+ "/" +:+ rest)
      with (scheme +:+ String "/" (EmptyString +:+ String "/" (host +:+ String "/" rest))).
    rewrite (split_char_cons "/" scheme _ Hs).
    rewrite (split_char_cons "/" EmptyString _ eq_refl).
    rewrite (split_char_cons "/" host _ Hh).
    pose proof (split_nonempty "/" rest ltac:(discriminate)) as Hlen.
    cbn [length drop].
    destruct (Nat.leb_spec 4 (S (S (S (length (PyStr.split "/" rest)))))); [|lia].
    change (drop 0 (PyStr.split "/" rest)) with (PyStr.split "/" rest).
    rewrite PyStrFacts.join_split by discriminate.
    unfold py_index. now rewrite PyStrFacts.split_head by discriminate. }
  split.
  - intros Hm. rewrite (Hgen _ Hm). unfold PyStr.upto.
    change (path +:+ "?" +:+ query) with (path +:+ String "?" query).
    now rewrite (find_cut_char "?" path query Hp).
  - intros Hm. rewrite (Hgen _ Hm). unfold PyStr.upto.
    apply PyStrFacts.find_cut_contains in Hp. now rewrite Hp.
Qed.

Lemma path_style_url_round_trip_witness :
  PyStr.contains "/" "https:" = false /\ PyStr.contains "/" "store.example" = false /\
  PyStr.contains "?" "lawly/a.pdf" = false /\
  _extract_path_from_url
    ("https:" +:+ "//" +:+ "store.example" +:+ "/" +:+ "lawly/a.pdf" +:+ "?" +:+ "X-Amz-Signature=0")
  = Some "lawly/a.pdf".
Proof.
  split; [reflexivity|]. split; [reflexivity|]. split; [reflexivity|].
  exact (proj1 (path_style_url_round_trip "https:" "store.example" "lawly/a.pdf" "X-Amz-Signature=0"
                  eq_refl eq_refl eq_refl) eq_refl).
Defined.

End S3TaskMore.

(** ** When the stored schedule is due *)

Module ScheduleFiring.
Import Scheduler CronClock.

(** *** Printing a number and reading it back *)

Lemma digit_value_char (d : N) :
  (d < 10)%N -> digit_value (pretty_N_char d) = Some (Z.of_N d).
Proof.
  intros H.
  assert (d = 0 \/ d = 1 \/ d = 2 \/ d = 3 \/ d = 4 \/ d = 5 \/ d = 6 \/ d = 7 \/ d = 8
          \/ d = 9)%N as Hd by lia.
  repeat (destruct Hd as [->|Hd]; [reflexivity|]). now subst d.
Qed.

Lemma parse_digits_cons (c : ascii) (s : string) (acc : Z) :
  parse_digits (String c s) acc =
  match digit_value c with
  | Some d => parse_digits s (10 * acc + d)
  | None => None
  end.
Proof. reflexivity. Qed.

Lemma parse_pretty_go (x : N) :
  forall s, parse_digits (pretty_N_go x s) 0 = parse_digits s (Z.of_N x).
Proof.
  induction (N.lt_wf_0 x) as [x _ IH]. intros s.
  destruct (N.eq_dec x 0%N) as [->|Hx]; [now rewrite pretty_N_go_0|].
  rewrite pretty_N_go_step by lia.
  rewrite IH by (apply N.div_lt; lia).
  rewrite parse_digits_cons, digit_value_char by (apply N.mod_lt; lia).
  f_equal. rewrite N2Z.inj_div, N2Z.inj_mod.
  pose proof (Z.div_mod (Z.of_N x) 10 ltac:(lia)). change (Z.of_N 10) with 10. lia.
Qed.

Lemma parse_digits_pretty (p : positive) : parse_digits (pretty (Zpos p)) 0 = Some (Zpos p).
Proof.
  change (pretty (Zpos p)) with (pretty_N_go (Npos p) EmptyString).
  now rewrite parse_pretty_go.
Qed.

Lemma parse_number_pretty (p : positive) : parse_number (pretty (Zpos p)) = Some (Zpos p).
Proof.
  pose proof (parse_digits_pretty p) as H. unfold parse_number.
  destruct (pretty (Zpos p)); [discriminate H | exact H].
Qed.

Lemma digits_no_space (s : string) :
  forall acc v, parse_digits s acc = Some v -> PyStr.contains " " s = false.
Proof.
  induction s as [|c s IH]; intros acc v H; [reflexivity|].
  rewrite parse_digits_cons in H.
  destruct (digit_value c) as [d|] eqn:Hd; [|discriminate].
  rewrite PyStrFacts.contains_cons, (IH _ _ H), orb_false_r.
  change (String.prefix " " (String c s))
    with (match ascii_dec " " c with
          | left _ => String.prefix EmptyString s
          | right _ => false
          end).
  destruct (ascii_dec " " c) as [<-|]; [discriminate Hd | reflexivity].
Qed.

Lemma step_field_no_space (p : positive) :
  PyStr.contains " " ("*/" +:+ pretty (Zpos p)) = false.
Proof.
  change ("*/" +:+ pretty (Zpos p)) with (String "*" (String "/" (pretty (Zpos p)))).
  rewrite !PyStrFacts.contains_cons, (digits_no_space _ _ _ (parse_digits_pretty p)).
  reflexivity.
Qed.

Lemma step_field_matches (p : positive) (v : Z) :
  field_matches ("*/" +:+ pretty (Zpos p)) v = (v mod Zpos p =? 0).
Proof.
  change ("*/" +:+ pretty (Zpos p)) with (String "*" (String "/" (pretty (Zpos p)))).
  unfold field_matches. rewrite parse_number_pretty. reflexivity.
Qed.

(** *** The two step forms *)


Lemma cron_due_step_hours (n minute hour : Z) :
  1 < n ->
  cron_due ("0 */" +:+ pretty n +:+ " * * *") minute hour
  = (minute =? 0) && (hour mod n =? 0).
Proof.
  intros Hn. destruct n as [|p|p]; try lia. unfold cron_due.
  change ("0 */" +:+ pretty (Zpos p) +:+ " * * *")
    with ("0" +:+ String " " (("*/" +:+ pretty (Zpos p)) +:+ String " " "* * *")).
  rewrite (S3TaskMore.split_char_cons " " "0" _ eq_refl).
  rewrite (S3TaskMore.split_char_cons " " _ _ (step_field_no_space p)).
  change (PyStr.split " " "* * *") with ["*"; "*"; "*"]%string.
  rewrite step_field_matches. reflexivity.
Qed.








(** The deployed three-day interval gives [0 */72 * * *], which is due at
    every midnight: 24 hours apart, not 72. *)
Lemma three_day_interval_fires_daily :
  spec (make_cron_job Main.s3_link_updater_task) = "0 */72 * * *" /\
  forall T, due_at "0 */72 * * *" T = true <-> T mod 1440 = 0.
Proof.
  split; [reflexivity|]. intros T. unfold due_at.
  rewrite (cron_due_step_hours 72 _ _ ltac:(lia)).
  rewrite andb_true_iff, !Z.eqb_eq.
  pose proof (Z.div_mod T 60 ltac:(lia)). pose proof (Z.mod_pos_bound T 60 ltac:(lia)).
  pose proof (Z.div_mod (T / 60) 24 ltac:(lia)).
  pose proof (Z.mod_pos_bound (T / 60) 24 ltac:(lia)).
  pose proof (Z.div_mod ((T / 60) mod 24) 72 ltac:(lia)).
  pose proof (Z.mod_pos_bound ((T / 60) mod 24) 72 ltac:(lia)).
  pose proof (Z.div_mod T 1440 ltac:(lia)). pose proof (Z.mod_pos_bound T 1440 ltac:(lia)).
  lia.
Qed.

End ScheduleFiring.
